(** * Zonal statistics and temporal aggregation (zonal_stats.py)

    A shallow embedding of the statistics script: the temporal key taken
    from a raster's file name, the per-band, per-geometry statistics of
    [compute_statistics], and the time-series bookkeeping of [main]; and of
    the pure parts of resample.py: the overview factors and the names of
    the outputs.

    Python values are modelled by [pyval]; dictionaries are association
    lists in insertion order; pixel values are IEEE-754 binary floats in
    the representation of the standard library's [SpecFloat].  Exceptions
    are explicit: a computation that may raise returns a [run], which also
    carries the diagnostics it emitted. *)

From Stdlib Require Import ZArith Ascii String Floats.SpecFloat.
From stdpp Require Import base option list strings pretty.


(** ** Exceptions, diagnostics and the monad threading them *)

Inductive exn :=
| ValueError
| TypeError
| KeyError
| IndexError.

Inductive result (A : Type) :=
| Ok (a : A)
| Raise (e : exn).
Arguments Ok {A} a.
Arguments Raise {A} e.

(** [logging.basicConfig(level=logging.INFO)]: records below INFO are
    dropped, so only INFO and WARNING records reach the output. *)
Inductive level := INFO | WARNING.

Abbreviation log_record := (level * string)%type (only parsing).

(** A computation returns a value or raises, and emits diagnostics. *)
Definition run (A : Type) : Type := result A * list log_record.

Definition run_ret {A} (a : A) : run A := (Ok a, []).

Definition run_bind {A B} (f : A → run B) (m : run A) : run B :=
  match m with
  | (Ok a, l) => let '(r, l') := f a in (r, l ++ l')
  | (Raise e, l) => (Raise e, l)
  end.

Definition raise {A} (e : exn) : run A := (Raise e, []).

Definition emit (lv : level) (msg : string) : run unit := (Ok (), [(lv, msg)]).

#[global] Instance run_mret : MRet run := @run_ret.
#[global] Instance run_mbind : MBind run := @run_bind.

(** ** Python values *)

Abbreviation pixel := spec_float (only parsing).

#[warnings="-register-all"] Inductive pyval :=
| PNone
| PInt (z : Z)
| PFloat (f : spec_float)
| PStr (s : string)
| PList (l : list pyval)
| PDict (d : list (string * pyval)).

(** A [dict] with string keys, in insertion order. *)
Abbreviation dict := (list (string * pyval)) (only parsing).

Fixpoint dict_get (k : string) (d : dict) : option pyval :=
  match d with
  | [] => None
  | (k', v) :: r => if decide (k' = k) then Some v else dict_get k r
  end.

(** [d[k] = v]: an existing key keeps its position, a new key goes last. *)
Fixpoint dict_set (k : string) (v : pyval) (d : dict) : dict :=
  match d with
  | [] => [(k, v)]
  | (k', v') :: r =>
      if decide (k' = k) then (k', v) :: r else (k', v') :: dict_set k v r
  end.

(** [d.update(e)], also the meaning of [{**d, **e}]. *)
Definition dict_update (d e : dict) : dict :=
  foldl (λ acc kv, dict_set kv.1 kv.2 acc) d e.

(** ** Temporal key: [extract_date_from_filename] and its use in [main] *)

Module DateKey.

(** A file name is a Python [str], a sequence of code points.  The model
    has one character per code point and so represents the names whose
    code points are below 256, the ASCII names among them.  Of these code
    points the decimal digits, which is what [\d] matches in a [str]
    pattern, are [0] to [9]: the Latin-1 superscripts and fractions are
    not decimal digits.  A name with other code points, such as the
    digits of another script, is outside the model; the statements on the
    pattern are made for ASCII names ([ascii_only] below). *)
Definition is_digit (c : ascii) : bool :=
  let n := nat_of_ascii c in (48 <=? n)%nat && (n <=? 57)%nat.

Definition is_sep (c : ascii) : bool :=
  bool_decide (c = "-"%char) || bool_decide (c = "_"%char).

(** A backtracking matcher for the pattern
    [(\d{4}[-_]?\d{2}[-_]?\d{2})], in continuation-passing style: each
    piece consumes a prefix and hands the rest to [k]; the result is the
    matched text. *)
Fixpoint digits (n : nat) (k : string → option string) (s : string)
    : option string :=
  match n with
  | O => k s
  | S n' =>
      match s with
      | String c r =>
          if is_digit c then String c <$> digits n' k r else None
      | EmptyString => None
      end
  end.

(** [[-_]?] is greedy: first with the separator, then without. *)
Definition opt_sep (k : string → option string) (s : string)
    : option string :=
  match s with
  | String c r =>
      if is_sep c then
        match k r with
        | Some m => Some (String c m)
        | None => k s
        end
      else k s
  | EmptyString => k s
  end.

Definition match_here : string → option string :=
  digits 4 (opt_sep (digits 2 (opt_sep (digits 2 (λ _, Some ""))))).

(** [re.search]: the match at the leftmost position that has one. *)
Fixpoint re_search (s : string) : option string :=
  match match_here s with
  | Some m => Some m
  | None =>
      match s with
      | String _ r => re_search r
      | EmptyString => None
      end
  end.

(** [re.sub(r'[-_]', '', s)] *)
Fixpoint strip_seps (s : string) : string :=
  match s with
  | EmptyString => EmptyString
  | String c r => if is_sep c then strip_seps r else String c (strip_seps r)
  end.

Record datetime := { year : nat; month : nat; day : nat }.

Definition digit_val (c : ascii) : nat := nat_of_ascii c - 48.

Fixpoint number (acc : nat) (s : list ascii) : nat :=
  match s with
  | [] => acc
  | c :: r => number (10 * acc + digit_val c) r
  end.

Definition is_leap (y : nat) : bool :=
  (y mod 4 =? 0)%nat && (negb (y mod 100 =? 0)%nat || (y mod 400 =? 0)%nat).

Definition days_in_month (y m : nat) : nat :=
  match m with
  | 1 | 3 | 5 | 7 | 8 | 10 | 12 => 31
  | 4 | 6 | 9 | 11 => 30
  | 2 => if is_leap y then 29 else 28
  | _ => 0
  end.

(** [datetime.strptime(s, "%Y%m%d")] on a string of eight digits, which
    is what [strip_seps] leaves of a match.  [%Y] takes four digits;
    [%m] and [%d] take at most two each, so all eight characters are
    converted only when both take two, the month being 01..12 and the
    day 01..31; any other reading leaves unconverted characters.  The
    date must then exist: years start at 1 and the day is bounded by the
    month.  Every failure is a [ValueError]. *)
Definition strptime_Ymd (s : string) : result datetime :=
  match list_ascii_of_string s with
  | [y1; y2; y3; y4; m1; m2; d1; d2] =>
      if forallb is_digit [y1; y2; y3; y4; m1; m2; d1; d2] then
        let y := number 0 [y1; y2; y3; y4] in
        let m := number 0 [m1; m2] in
        let d := number 0 [d1; d2] in
        if (1 <=? y)%nat && (1 <=? m)%nat && (m <=? 12)%nat
           && (1 <=? d)%nat && (d <=? days_in_month y m)%nat
        then Ok {| year := y; month := m; day := d |}
        else Raise ValueError
      else Raise ValueError
  | _ => Raise ValueError
  end.

Definition extract_date_from_filename (filename : string)
    : result (option datetime) :=
  match re_search filename with
  | Some m =>
      let date_str := strip_seps m in
      match strptime_Ymd date_str with
      | Ok d => Ok (Some d)
      | Raise e => Raise e
      end
  | None => Ok None
  end.

(** Decimal rendering, zero-padded on the left to [w] characters. *)
Fixpoint zeros (n : nat) : string :=
  match n with
  | O => ""
  | S n' => String "0" (zeros n')
  end.

Definition zero_pad (w n : nat) : string :=
  let s := pretty n in zeros (w - String.length s) +:+ s.

(** [d.strftime("%Y-%m-%d")].  [%m] and [%d] are padded to two digits.
    [%Y] is rendered by the C library of the platform: the GNU library
    writes the year without padding, so that year 999 gives [999-01-01].
    From year 1000 on all platforms agree. *)
Definition strftime_Ymd (d : datetime) : string :=
  pretty (year d) +:+ "-" +:+ zero_pad 2 (month d) +:+ "-"
  +:+ zero_pad 2 (day d).

Fixpoint has_slash (p : string) : bool :=
  match p with
  | EmptyString => false
  | String c r => bool_decide (c = "/"%char) || has_slash r
  end.

(** [os.path.basename]: what follows the last slash. *)
Fixpoint basename (p : string) : string :=
  match p with
  | EmptyString => EmptyString
  | String c r =>
      if has_slash r then basename r
      else if bool_decide (c = "/"%char) then r else p
  end.

(** Lines 165-166 of [main]:
    [date = extract_date_from_filename(os.path.basename(tiff))] and
    [date_key = date.strftime("%Y-%m-%d") if date else os.path.basename(tiff)]. *)
Definition date_key (tiff : string) : result string :=
  match extract_date_from_filename (basename tiff) with
  | Ok (Some d) => Ok (strftime_Ymd d)
  | Ok None => Ok (basename tiff)
  | Raise e => Raise e
  end.

End DateKey.


(** ** Loops *)

(** [enumerate(l, start)] *)
Fixpoint enumerate {A} (start : nat) (l : list A) : list (nat * A) :=
  match l with
  | [] => []
  | x :: r => (start, x) :: enumerate (S start) r
  end.

(** A [for] loop over [l] that updates a state [s]; an exception raised by
    the body leaves the loop. *)
Fixpoint for_each {A S} (body : S → A → run S) (s : S) (l : list A) : run S :=
  match l with
  | [] => mret s
  | x :: r => s' ← body s x; for_each body s' r
  end.

Definition lift {A} (r : result A) : run A := (r, []).

(** ** Per-raster statistics: [compute_statistics] *)

(** numpy's reductions over the valid pixels.  Their rounding is numpy's
    business; the development takes them as parameters. *)
Record numpy := {
  np_min : list pixel → spec_float;
  np_max : list pixel → spec_float;
  np_mean : list pixel → spec_float;
  np_std : list pixel → spec_float
}.

(** [np.isfinite] *)
Definition isfinite (x : pixel) : bool :=
  match x with
  | S754_zero _ | S754_finite _ _ _ => true
  | S754_infinity _ | S754_nan => false
  end.

(** Lines 74-77: [data != nodata] when the raster declares a sentinel,
    [np.isfinite(data)] otherwise.  [SFeqb] is IEEE equality. *)
Definition valid_mask (nodata : option pixel) (data : list pixel) : list bool :=
  match nodata with
  | Some nd => (λ x, negb (SFeqb x nd)) <$> data
  | None => isfinite <$> data
  end.

(** [np.count_nonzero] of a boolean array *)
Fixpoint count_nonzero (m : list bool) : nat :=
  match m with
  | [] => 0
  | b :: r => (if b then 1 else 0) + count_nonzero r
  end.

(** [data[m]]: the elements of [data] where the mask [m] is true *)
Fixpoint bool_index {A} (data : list A) (m : list bool) : list A :=
  match data, m with
  | x :: d, b :: r => if b then x :: bool_index d r else bool_index d r
  | _, _ => []
  end.

(** The dictionary literal of lines 60-68, 84-92 and 94-102. *)
Definition stats_dict (band_name : string) (mn mx mean sd : pyval)
    (cnt valid invalid : Z) : dict :=
  [ (band_name +:+ "_min", mn);
    (band_name +:+ "_max", mx);
    (band_name +:+ "_mean", mean);
    (band_name +:+ "_std", sd);
    (band_name +:+ "_count", PInt cnt);
    (band_name +:+ "_valid", PInt valid);
    (band_name +:+ "_invalid", PInt invalid) ].

(** The record substituted when masking raised (lines 60-68). *)
Definition failed_record (band_name : string) : dict :=
  stats_dict band_name PNone PNone PNone PNone 0 0 0.

(** Lines 71-102: the statistics of one band's pixels [data], the cropped
    window flattened in row-major order. *)
Definition pixel_stats (np : numpy) (band_name : string)
    (nodata : option pixel) (data : list pixel) : dict :=
  let total_pixels := Z.of_nat (length data) in
  let valid_mask := valid_mask nodata data in
  let valid_pixels := count_nonzero valid_mask in
  let invalid_pixels := (total_pixels - Z.of_nat valid_pixels)%Z in
  let valid_data := bool_index data valid_mask in
  if (valid_pixels =? 0)%nat then
    stats_dict band_name PNone PNone PNone PNone
      total_pixels 0 invalid_pixels
  else
    stats_dict band_name
      (PFloat (np_min np valid_data)) (PFloat (np_max np valid_data))
      (PFloat (np_mean np valid_data)) (PFloat (np_std np valid_data))
      total_pixels (Z.of_nat valid_pixels) invalid_pixels.

(** Line 50: the label of the band at position [i] with index [band]. *)
Definition band_label (band_names : option (list string)) (i band : nat)
    : string :=
  let fallback := "band_" +:+ pretty band in
  match band_names with
  | Some names =>
      if negb (bool_decide (names = [])) && bool_decide (i < length names)
      then default fallback (names !! i)
      else fallback
  | None => fallback
  end.

Section Statistics.
Context {geom : Type}.

(** What the script observes of an opened raster [src]: its sentinel
    [src.nodata], its number of bands, and what
    [mask(src, [geom], crop=True)] does for a geometry: raise, with the
    text of the exception, or return [out_image], here a function from the
    position of a band to that band's window. *)
Record dataset := {
  nodata : option pixel;
  count : nat;
  mask_crop : geom → string + (nat → list pixel)
}.

(** [src.indexes]: the band indexes, from 1. *)
Definition indexes (src : dataset) : list nat := seq 1 (count src).

(** Lines 56-102: the body of the loop over the geometries. *)
Definition geom_step (np : numpy) (src : dataset) (band_name : string)
    (band geom_idx : nat) (g : geom) : run dict :=
  match mask_crop src g with
  | inl e =>
      emit WARNING
        ("Failed to mask geometry " +:+ pretty geom_idx +:+ ": " +:+ e);;
      mret (failed_record band_name)
  | inr out_image =>
      let data := out_image (band - 1) in
      mret (pixel_stats np band_name (nodata src) data)
  end.

(** Lines 49-107: one list of records per band, one record per geometry. *)
Definition collect_band_stats (np : numpy) (src : dataset)
    (shapes : list geom) (band_names : option (list string))
    : run (list (list dict)) :=
  for_each
    (λ stats_list '(i, band),
       let band_name := band_label band_names i band in
       emit INFO ("Processing " +:+ band_name +:+ " ...");;
       band_stats ←
         for_each
           (λ band_stats '(geom_idx, g),
              d ← geom_step np src band_name band geom_idx g;
              mret (band_stats ++ [d]))
           [] (enumerate 0 shapes);
       mret (stats_list ++ [band_stats]))
    [] (enumerate 0 (indexes src)).

(** Lines 110-115: the records of all bands merged per geometry. *)
Definition merge_stats (n : nat) (stats_list : list (list dict))
    : run (list dict) :=
  for_each
    (λ combined_stats i,
       geom_stats ←
         for_each
           (λ geom_stats (band_stats : list dict),
              match band_stats !! i with
              | Some d => mret (dict_update geom_stats d)
              | None => raise IndexError
              end)
           [] stats_list;
       mret (combined_stats ++ [geom_stats]))
    [] (seq 0 n).

Definition compute_statistics (np : numpy) (raster_path : string)
    (src : dataset) (shapes : list geom)
    (band_names : option (list string)) : run (list dict) :=
  emit INFO ("Opening raster: " +:+ raster_path);;
  stats_list ← collect_band_stats np src shapes band_names;
  merge_stats (length shapes) stats_list.

End Statistics.
Arguments dataset geom : clear implicits.

(** ** [rasterio.mask.mask]

    The library function behind [mask_crop], as documented for the call
    of line 57: [crop=True] and the defaults [filled=True],
    [nodata=None].  The result covers the bounding window of the
    geometry, a full rectangle; a pixel of the window that the geometry
    does not cover is set to the fill value, which is the raster's
    sentinel, or 0 when the raster declares none.  A window is given here
    by its pixels in row-major order, each with the flag "covered by the
    geometry" and the value the read returns for it (a pixel that the
    raster itself masks already holds the fill value). *)

Definition fill_value (nodata : option pixel) : pixel :=
  match nodata with
  | Some nd => nd
  | None => S754_zero false
  end.

Definition rasterio_fill (nodata : option pixel)
    (window : list (bool * pixel)) : list pixel :=
  (λ p : bool * pixel, if p.1 then p.2 else fill_value nodata) <$> window.

(** The values of the pixels the geometry covers. *)
Definition inside_values (window : list (bool * pixel)) : list pixel :=
  snd <$> filter (λ p : bool * pixel, p.1 = true) window.

(** A raster whose [mask_crop] is rasterio's: [rasterize] gives, for a
    geometry, the failure to overlap or the window of each band. *)
Definition rasterio_dataset {geom} (nd : option pixel) (cnt : nat)
    (rasterize : geom → string + (nat → list (bool * pixel)))
    : dataset geom :=
  {| nodata := nd;
     count := cnt;
     mask_crop := λ g,
       match rasterize g with
       | inl e => inl e
       | inr window => inr (λ b, rasterio_fill nd (window b))
       end |}.

(** ** An instance of the reductions, for evaluation

    Binary64 arithmetic with left-to-right accumulation, which is how
    numpy adds up an array of fewer than eight elements.  It serves to
    run the model on examples; the general statements are made for every
    [numpy]. *)

Module Float64.

Definition prec : Z := 53.
Definition emax : Z := 1024.

Definition of_Z (z : Z) : spec_float := binary_normalize prec emax z 0 false.

Definition is_nan (x : spec_float) : bool :=
  match x with
  | S754_nan => true
  | _ => false
  end.

Definition fmin (a b : spec_float) : spec_float :=
  if is_nan a then a else if is_nan b then b
  else if SFltb b a then b else a.

Definition fmax (a b : spec_float) : spec_float :=
  if is_nan a then a else if is_nan b then b
  else if SFltb a b then b else a.

Definition reduce (f : spec_float → spec_float → spec_float)
    (l : list spec_float) : spec_float :=
  match l with
  | [] => S754_nan
  | x :: r => foldl f x r
  end.

Definition mean (l : list spec_float) : spec_float :=
  SFdiv prec emax (foldl (SFadd prec emax) (S754_zero false) l)
    (of_Z (Z.of_nat (length l))).

Definition std (l : list spec_float) : spec_float :=
  let m := mean l in
  SFsqrt prec emax
    (mean ((λ x, let d := SFsub prec emax x m in SFmul prec emax d d) <$> l)).

Definition np : numpy :=
  {| np_min := reduce fmin; np_max := reduce fmax;
     np_mean := mean; np_std := std |}.

End Float64.

(** ** Time series: the multi-raster branch of [main] *)

(** Lines 154-160.  [{"date": k, **v}] needs [v] to be a mapping. *)
Definition convert_ts (value : pyval) : result (list pyval) :=
  match value with
  | PDict items =>
      foldr
        (λ kv acc,
           match kv.2, acc with
           | PDict fields, Ok entries =>
               Ok (PDict (dict_update [("date", PStr kv.1)] fields) :: entries)
           | PDict _, Raise e => Raise e
           | _, _ => Raise TypeError
           end)
        (Ok []) items
  | PList l => Ok l
  | _ => Ok []
  end.

Section Main.
Context {geom : Type}.

(** The feature table after loading: its geometries and, when the file
    had one, its [timeseries] column, one value per feature. *)
Record geodataframe := {
  geometry : list geom;
  timeseries : option (list pyval)
}.

(** Lines 150-161: the column of series, each a list. *)
Definition init_timeseries (gdf : geodataframe) : run (list (list pyval)) :=
  match timeseries gdf with
  | None => mret (replicate (length (geometry gdf)) [])
  | Some col =>
      for_each (λ acc value, l ← lift (convert_ts value); mret (acc ++ [l]))
        [] col
  end.

(** Lines 174-178: the entry of one feature for one raster. *)
Definition append_stat (date_key : string) (ts : list (list pyval))
    (p : nat * dict) : run (list (list pyval)) :=
  match ts !! p.1 with
  | Some ts_list =>
      let entry := dict_update [("date", PStr date_key)] p.2 in
      mret (<[p.1 := ts_list ++ [PDict entry]]> ts)
  | None => raise KeyError
  end.

(** Lines 163-178: one raster, given with its opened dataset. *)
Definition process_tiff (np : numpy) (band_names : option (list string))
    (shapes : list geom) (n_tiffs : nat) (ts : list (list pyval))
    (p : nat * (string * dataset geom)) : run (list (list pyval)) :=
  let tiff_idx := p.1 in
  let tiff := p.2.1 in
  emit INFO ("[" +:+ pretty tiff_idx +:+ "/" +:+ pretty n_tiffs
             +:+ "] Processing TIFF: " +:+ tiff);;
  date_key ← lift (DateKey.date_key tiff);
  stats ← compute_statistics np tiff p.2.2 shapes band_names;
  emit INFO ("Computed statistics for " +:+ pretty (length stats)
             +:+ " features in " +:+ tiff);;
  for_each (append_stat date_key) ts (enumerate 0 stats).

Inductive output :=
| Statistics (stats : list dict)
| Timeseries (ts : list (list pyval)).

(** Lines 140-178 of [main]: a single raster gives the [statistics]
    column, several give the [timeseries] column.  Each raster comes with
    the dataset that opening it yields. *)
Definition main (np : numpy) (band_names : option (list string))
    (gdf : geodataframe) (tiffs : list (string * dataset geom))
    : run output :=
  match tiffs with
  | [(tiff, src)] =>
      stats ← compute_statistics np tiff src (geometry gdf) band_names;
      mret (Statistics stats)
  | _ =>
      ts0 ← init_timeseries gdf;
      ts ← for_each (process_tiff np band_names (geometry gdf) (length tiffs))
             ts0 (enumerate 1 tiffs);
      mret (Timeseries ts)
  end.

End Main.
Arguments geodataframe geom : clear implicits.

(** ** Descriptions used in the statements *)

(** The record [geom_step] produces for a geometry, *)
Definition geom_record {geom} (np : numpy) (src : dataset geom)
    (band_name : string) (band : nat) (g : geom) : dict :=
  match mask_crop src g with
  | inl _ => failed_record band_name
  | inr out_image => pixel_stats np band_name (nodata src) (out_image (band - 1))
  end.

(** and the diagnostics it emits. *)
Definition geom_log {geom} (src : dataset geom) (geom_idx : nat) (g : geom)
    : list log_record :=
  match mask_crop src g with
  | inl e =>
      [(WARNING, "Failed to mask geometry " +:+ pretty geom_idx +:+ ": " +:+ e)]
  | inr _ => []
  end.

(** The records of one band, one per geometry, and the diagnostics of
    that band's pass. *)
Definition band_records {geom} (np : numpy) (src : dataset geom)
    (shapes : list geom) (band_names : option (list string))
    (p : nat * nat) : list dict :=
  geom_record np src (band_label band_names p.1 p.2) p.2 <$> shapes.

Definition band_log {geom} (src : dataset geom) (shapes : list geom)
    (band_names : option (list string)) (p : nat * nat) : list log_record :=
  (INFO, "Processing " +:+ band_label band_names p.1 p.2 +:+ " ...")
  :: concat ((λ q, geom_log src q.1 q.2) <$> enumerate 0 shapes).

(** The record of geometry [i] merged over the bands. *)
Definition merged (stats_list : list (list dict)) (i : nat) : dict :=
  foldl (λ acc (bs : list dict), dict_update acc (default [] (bs !! i)))
    [] stats_list.

(** The rule of the specification for an invalid pixel: equal to the
    declared sentinel under IEEE equality or, without a sentinel, not a
    finite real number, that is NaN or an infinity. *)
Definition spec_invalid (nodata : option pixel) (x : pixel) : bool :=
  match nodata with
  | Some nd => SFeqb x nd
  | None =>
      match x with
      | S754_nan | S754_infinity _ => true
      | S754_zero _ | S754_finite _ _ _ => false
      end
  end.

(** A date-keyed mapping of records, as a Python value. *)
Definition mapping_of (recs : list (string * dict)) : pyval :=
  PDict ((λ kr : string * dict, (kr.1, PDict kr.2)) <$> recs).

(** An entry of a time series: [{"date": key}] updated with a record. *)
Definition entry (key : string) (rec : dict) : pyval :=
  PDict (dict_update [("date", PStr key)] rec).

(** The state of feature [i] before the first append: series [old] once
    normalised, with a column that normalises without raising. *)
Definition starts_as {geom} (gdf : geodataframe geom) (i : nat)
    (old : list pyval) : Prop :=
  match timeseries gdf with
  | None => i < length (geometry gdf) ∧ old = []
  | Some col =>
      length col = length (geometry gdf)
      ∧ Forall (λ v, ∃ l, convert_ts v = Ok l) col
      ∧ ∃ v, col !! i = Some v ∧ convert_ts v = Ok old
  end.

(** ** resample.py: overview factors and output names *)

Module Resample.

(** Lines 64-69 of [build_and_print_overviews]: [f = 2] and
    [while min_dim // f > 64: factors.append(f); f *= 2].  Sizes are
    non-negative integers; the loop runs on [fuel] and returns nothing when
    it runs out of it. *)
Fixpoint factors_loop (fuel : nat) (min_dim f : N) (factors : list N)
    : option (list N) :=
  match fuel with
  | O => None
  | S fuel' =>
      if (64 <? min_dim / f)%N
      then factors_loop fuel' min_dim (f * 2)%N (factors ++ [f])
      else Some factors
  end.

(** [min_dim = min(base_band.XSize, base_band.YSize)], with as many rounds
    as [min_dim] has binary digits. *)
Definition overview_factors (xsize ysize : N) : option (list N) :=
  let min_dim := N.min xsize ysize in
  factors_loop (S (N.size_nat min_dim)) min_dim 2 [].

(** Line 70: [if factors:] guards the call of [BuildOverviews]. *)
Definition builds_overviews (xsize ysize : N) : bool :=
  match overview_factors xsize ysize with
  | Some (_ :: _) => true
  | _ => false
  end.

(** [str.rfind] of a character: the index of its last occurrence, -1 when
    there is none.  Paths are lists of characters here. *)
Fixpoint rfind (c : ascii) (p : list ascii) : Z :=
  match p with
  | [] => (-1)%Z
  | x :: r =>
      let i := rfind c r in
      if (0 <=? i)%Z then (i + 1)%Z
      else if bool_decide (x = c) then 0%Z else (-1)%Z
  end.

(** [p[a:b]] for [0 <= a] *)
Definition slice (a b : Z) (p : list ascii) : list ascii :=
  take (Z.to_nat (b - a)) (drop (Z.to_nat a) p).

(** [os.path.splitext] (posixpath, through [genericpath._splitext]): the
    extension starts at the last dot of the last component, unless only
    dots precede it in that component.  The loop over the leading dots
    returns at the first character that is not a dot. *)
Definition splitext (p : list ascii) : list ascii * list ascii :=
  let sepIndex := rfind "/" p in
  let dotIndex := rfind "." p in
  if (sepIndex <? dotIndex)%Z then
    if existsb (λ c, negb (bool_decide (c = "."%char)))
         (slice (sepIndex + 1) dotIndex p)
    then (take (Z.to_nat dotIndex) p, drop (Z.to_nat dotIndex) p)
    else (p, [])
  else (p, []).

Definition matched_suffix : list ascii := list_ascii_of_string "_matched".

(** Lines 82-84: [base, ext = os.path.splitext(filename)] and
    [f"{base}_matched{ext}"]. *)
Definition matched_name (filename : list ascii) : list ascii :=
  let '(base, ext) := splitext filename in
  base ++ matched_suffix ++ ext.

End Resample.

(** ** Descriptions used in the further statements *)

(** The seven suffixes of the keys of a band record (lines 60-67). *)
Definition metrics : list string :=
  ["_min"; "_max"; "_mean"; "_std"; "_count"; "_valid"; "_invalid"].

(** The labels of the bands of a raster, in band order. *)
Definition band_labels {geom} (src : dataset geom)
    (band_names : option (list string)) : list string :=
  (λ p : nat * nat, band_label band_names p.1 p.2)
  <$> enumerate 0 (indexes src).

(** The records of all bands for one geometry, in band order. *)
Definition geom_band_records {geom} (np : numpy) (src : dataset geom)
    (band_names : option (list string)) (g : geom) : list dict :=
  (λ p : nat * nat, geom_record np src (band_label band_names p.1 p.2) p.2 g)
  <$> enumerate 0 (indexes src).

(** Strings of digits, strings without any digit, an optional separator
    of the date pattern, and the number a string of digits denotes. *)
Definition all_digits (s : string) : Prop :=
  forallb DateKey.is_digit (list_ascii_of_string s) = true.

Definition no_digit (s : string) : Prop :=
  forallb (λ c, negb (DateKey.is_digit c)) (list_ascii_of_string s) = true.

Definition optional_sep (s : string) : Prop :=
  s = "" ∨ ∃ c, s = String c "" ∧ DateKey.is_sep c = true.

Definition value (s : string) : nat :=
  DateKey.number 0 (list_ascii_of_string s).

(** An ASCII string: every code point is below 128. *)
Definition ascii_only (s : string) : Prop :=
  forallb (λ c, nat_of_ascii c <? 128) (list_ascii_of_string s) = true.

(** An existing [timeseries] column that [convert_ts] accepts. *)
Definition normalizes {geom} (gdf : geodataframe geom) : Prop :=
  match timeseries gdf with
  | None => True
  | Some col =>
      length col = length (geometry gdf)
      ∧ Forall (λ v, ∃ l, convert_ts v = Ok l) col
  end.

(** ** Example inputs *)

Definition ex_nodata : pixel := Float64.of_Z (-9999).

(** A window of four pixels; the third lies outside the geometry. *)
Definition ex_window : list (bool * pixel) :=
  [ (true, Float64.of_Z 1); (true, Float64.of_Z 2);
    (false, Float64.of_Z 7); (true, Float64.of_Z 4) ].

(** A window in which every covered pixel holds the sentinel. *)
Definition ex_empty_window : list (bool * pixel) :=
  [ (true, ex_nodata); (false, Float64.of_Z 5) ].

(** A raster with one band and three kinds of geometry: [0] is covered
    by [ex_window], [1] by [ex_empty_window], any other lies off the
    raster. *)
Definition ex_rasterize (g : nat)
    : string + (nat → list (bool * pixel)) :=
  match g with
  | 0 => inr (λ _, ex_window)
  | 1 => inr (λ _, ex_empty_window)
  | _ => inl "Input shapes do not overlap raster."
  end.

Definition ex_src : dataset nat :=
  rasterio_dataset (Some ex_nodata) 1 ex_rasterize.

Definition ex_src2 : dataset nat :=
  rasterio_dataset (Some ex_nodata) 2 ex_rasterize.

Definition ex_gdf : geodataframe nat :=
  {| geometry := [0; 2; 1]; timeseries := None |}.

Definition ex_tiffs : list (string * dataset nat) :=
  [ ("data/scene_2023-01-01.tif", ex_src);
    ("data/scene_20230201_v2.tif", ex_src) ].

Definition ex_legacy : list (string * dict) :=
  [ ("2023-01-01", [("band_1_mean", PFloat (Float64.of_Z 3))]);
    ("2023-02-01", [("band_1_mean", PFloat (Float64.of_Z 5))]) ].

(** A raster of two bands whose single supplied name is the fallback label
    of the second band. *)
Definition ex_clash : option (list string) := Some ["band_2"].

Definition ex_bad_tiffs : list (string * dataset nat) :=
  ex_tiffs ++ [("data/scene_20231345.tif", ex_src);
               ("data/scene_2023-03-01.tif", ex_src)].

(** A raster with sentinel -9999 and a window, fully covered by the
    geometry, whose second pixel is NaN. *)
Definition ex_nan_window : list (bool * pixel) :=
  [ (true, Float64.of_Z 1); (true, S754_nan); (true, Float64.of_Z 4) ].

Definition ex_nan_src : dataset nat :=
  rasterio_dataset (Some ex_nodata) 1 (λ _, inr (λ _, ex_nan_window)).

(** The binary64 number nearest to 0.1, and a raster without sentinel with
    a window of three such pixels, all covered by the geometry. *)
Definition ex_tenth : pixel :=
  SFdiv Float64.prec Float64.emax (Float64.of_Z 1) (Float64.of_Z 10).

Definition ex_tenth_window : list (bool * pixel) :=
  [ (true, ex_tenth); (true, ex_tenth); (true, ex_tenth) ].

Definition ex_tenth_src : dataset nat :=
  rasterio_dataset None 1 (λ _, inr (λ _, ex_tenth_window)).

(** A legacy column whose first value maps a date to a number. *)
Definition ex_bad_gdf : geodataframe nat :=
  {| geometry := [0; 2; 1];
     timeseries := Some [PDict [("2023-01-01", PInt 3)]; PNone; PList []] |}.

(** * Properties *)

(** ** The monad and its loops *)

Lemma bind_ok {A B} (f : A → run B) (a : A) (l : list log_record) :
  ((Ok a, l) ≫= f : run B) = ((f a).1, l ++ (f a).2).
Proof. unfold mbind, run_mbind, run_bind. by destruct (f a). Qed.

Lemma bind_raise {A B} (f : A → run B) (e : exn) (l : list log_record) :
  ((Raise e, l) ≫= f : run B) = (Raise e, l).
Proof. done. Qed.

(** A loop whose body never raises under an invariant [I] returns the
    fold of the body's effect and the diagnostics of all rounds. *)
Lemma for_each_inv {A S} (body : S → A → run S) (f : S → A → S)
    (lg : A → list log_record) (I : S → Prop) (l : list A) :
  (∀ s x, x ∈ l → I s → body s x = (Ok (f s x), lg x) ∧ I (f s x)) →
  ∀ s, I s →
    for_each body s l = (Ok (foldl f s l), concat (lg <$> l))
    ∧ I (foldl f s l).
Proof.
  induction l as [|x r IH]; intros Hbody s Hs; simpl.
  - by split.
  - destruct (Hbody s x) as [Hx HI]; [by left | done |].
    rewrite Hx, bind_ok.
    destruct (IH (λ s' y Hy, Hbody s' y (list_elem_of_further _ _ _ Hy))
                (f s x) HI) as [-> HI'].
    by split.
Qed.

Lemma for_each_mem {A S} (body : S → A → run S) (f : S → A → S)
    (lg : A → list log_record) (l : list A) (s : S) :
  (∀ s x, x ∈ l → body s x = (Ok (f s x), lg x)) →
  for_each body s l = (Ok (foldl f s l), concat (lg <$> l)).
Proof.
  intros Hbody.
  by destruct (for_each_inv body f lg (λ _, True) l
                 (λ s' x Hx _, conj (Hbody s' x Hx) I) s I) as [-> _].
Qed.

Lemma for_each_total {A S} (body : S → A → run S) (f : S → A → S)
    (lg : A → list log_record) (l : list A) (s : S) :
  (∀ s x, body s x = (Ok (f s x), lg x)) →
  for_each body s l = (Ok (foldl f s l), concat (lg <$> l)).
Proof. intros Hbody. apply for_each_mem. auto. Qed.

Lemma foldl_snoc {A B} (h : A → B) (l : list A) (acc : list B) :
  foldl (λ acc x, acc ++ [h x]) acc l = acc ++ (h <$> l).
Proof.
  revert acc. induction l as [|x r IH]; intros acc; simpl.
  - by rewrite app_nil_r.
  - by rewrite IH, <- app_assoc.
Qed.

Lemma enumerate_lookup {A} (l : list A) (start i : nat) :
  enumerate start l !! i = (λ x, (start + i, x)) <$> l !! i.
Proof.
  revert start i. induction l as [|x r IH]; intros start [|i]; simpl; try done.
  - by rewrite Nat.add_0_r.
  - rewrite IH. by replace (S start + i) with (start + S i) by lia.
Qed.

Lemma enumerate_length {A} (l : list A) (start : nat) :
  length (enumerate start l) = length l.
Proof. revert start. induction l; intros; simpl; auto. Qed.

Lemma enumerate_fmap_snd {A B} (h : A → B) (l : list A) (start : nat) :
  (λ p, h p.2) <$> enumerate start l = h <$> l.
Proof. revert start. induction l; intros; csimpl; f_equal; auto. Qed.

(** ** Dictionaries *)

Lemma dict_get_set_eq (k : string) (v : pyval) (d : dict) :
  dict_get k (dict_set k v d) = Some v.
Proof.
  induction d as [|[k' v'] r IH]; simpl.
  - by rewrite decide_True.
  - destruct (decide (k' = k)) as [->|Hne]; simpl.
    + by rewrite decide_True.
    + by rewrite decide_False.
Qed.

Lemma dict_get_set_ne (k f : string) (v : pyval) (d : dict) :
  k ≠ f → dict_get f (dict_set k v d) = dict_get f d.
Proof.
  intros Hne. induction d as [|[k' v'] r IH]; simpl.
  - by rewrite decide_False.
  - destruct (decide (k' = k)) as [->|Hne']; simpl.
    + by rewrite !decide_False.
    + destruct (decide (k' = f)); done.
Qed.

(** Lookup after [update] with a dictionary whose keys are distinct. *)
Lemma dict_get_update (f : string) (e d : dict) :
  NoDup e.*1 →
  dict_get f (dict_update d e)
  = match dict_get f e with Some v => Some v | None => dict_get f d end.
Proof.
  unfold dict_update. revert d.
  induction e as [|[k v] r IH]; intros d Hnd; simpl; [done|].
  apply NoDup_cons in Hnd as [Hk Hnd]. rewrite (IH _ Hnd).
  destruct (decide (k = f)) as [->|Hne].
  - assert (dict_get f r = None) as ->; [|apply dict_get_set_eq].
    clear -Hk. induction r as [|[k' v'] r IH]; simpl; [done|].
    simpl in Hk. apply not_elem_of_cons in Hk as [Hne Hk].
    rewrite decide_False by done. auto.
  - by rewrite dict_get_set_ne.
Qed.

(** Lookups in a statistics record: the seven keys are distinct. *)
Ltac stats_get :=
  unfold stats_dict, dict_get;
  repeat (let H := fresh "Heq" in
          case_decide as H;
          [ first [ reflexivity
                  | exfalso; apply (inj (String.append _)) in H;
                    discriminate H ]
          | try (exfalso; apply H; reflexivity); clear H ]).

Section StatsDict.
Context (n : string) (mn mx mean sd : pyval) (c v i : Z).

Lemma get_min : dict_get (n +:+ "_min") (stats_dict n mn mx mean sd c v i) = Some mn.
Proof. stats_get. Qed.
Lemma get_max : dict_get (n +:+ "_max") (stats_dict n mn mx mean sd c v i) = Some mx.
Proof. stats_get. Qed.
Lemma get_mean : dict_get (n +:+ "_mean") (stats_dict n mn mx mean sd c v i) = Some mean.
Proof. stats_get. Qed.
Lemma get_std : dict_get (n +:+ "_std") (stats_dict n mn mx mean sd c v i) = Some sd.
Proof. stats_get. Qed.
Lemma get_count : dict_get (n +:+ "_count") (stats_dict n mn mx mean sd c v i) = Some (PInt c).
Proof. stats_get. Qed.
Lemma get_valid : dict_get (n +:+ "_valid") (stats_dict n mn mx mean sd c v i) = Some (PInt v).
Proof. stats_get. Qed.
Lemma get_invalid : dict_get (n +:+ "_invalid") (stats_dict n mn mx mean sd c v i) = Some (PInt i).
Proof. stats_get. Qed.

End StatsDict.

(** ** Validity and counts *)

Lemma valid_mask_spec (nodata : option pixel) (data : list pixel) :
  valid_mask nodata data = (λ x, negb (spec_invalid nodata x)) <$> data.
Proof.
  destruct nodata as [nd|]; simpl; [done|].
  apply list_fmap_ext. intros _ x _. by destruct x.
Qed.

Lemma valid_data_filter (nodata : option pixel) (data : list pixel) :
  bool_index data (valid_mask nodata data)
  = filter (λ x, spec_invalid nodata x = false) data.
Proof.
  rewrite valid_mask_spec.
  induction data as [|x r IH]; csimpl; [done|].
  rewrite filter_cons.
  destruct (decide (spec_invalid nodata x = false)) as [Hx|Hx].
  - rewrite Hx. csimpl. by f_equal.
  - apply not_false_is_true in Hx. by rewrite Hx.
Qed.

Lemma valid_count_filter (nodata : option pixel) (data : list pixel) :
  count_nonzero (valid_mask nodata data)
  = length (filter (λ x, spec_invalid nodata x = false) data).
Proof.
  rewrite valid_mask_spec.
  induction data as [|x r IH]; csimpl; [done|].
  rewrite filter_cons.
  destruct (decide (spec_invalid nodata x = false)) as [Hx|Hx].
  - rewrite Hx. csimpl. by f_equal.
  - apply not_false_is_true in Hx. by rewrite Hx.
Qed.

Lemma invalid_count_filter (nodata : option pixel) (data : list pixel) :
  (Z.of_nat (length data) - Z.of_nat (count_nonzero (valid_mask nodata data)))%Z
  = Z.of_nat (length (filter (λ x, spec_invalid nodata x = true) data)).
Proof.
  rewrite valid_count_filter.
  induction data as [|x r IH]; simpl length; [done|].
  rewrite !filter_cons.
  destruct (spec_invalid nodata x) eqn:Hx.
  - rewrite decide_False, decide_True by done. simpl length. lia.
  - rewrite decide_True, decide_False by done. simpl length. lia.
Qed.

Lemma geom_step_eq {geom} (np : numpy) (src : dataset geom)
    (band_name : string) (band geom_idx : nat) (g : geom) :
  geom_step np src band_name band geom_idx g
  = (Ok (geom_record np src band_name band g), geom_log src geom_idx g).
Proof.
  unfold geom_step, geom_record, geom_log.
  by destruct (mask_crop src g).
Qed.

Lemma pixel_stats_counts (np : numpy) (name : string)
    (nodata : option pixel) (data : list pixel) :
  let rec := pixel_stats np name nodata data in
  let valid := count_nonzero (valid_mask nodata data) in
  dict_get (name +:+ "_count") rec = Some (PInt (Z.of_nat (length data)))
  ∧ dict_get (name +:+ "_valid") rec = Some (PInt (Z.of_nat valid))
  ∧ dict_get (name +:+ "_invalid") rec
    = Some (PInt (Z.of_nat (length data) - Z.of_nat valid)).
Proof.
  intros rec valid. subst rec valid. unfold pixel_stats.
  destruct (count_nonzero (valid_mask nodata data)) as [|k] eqn:Hk;
    cbn [Nat.eqb]; by rewrite get_count, get_valid, get_invalid.
Qed.

(** C3: for every band and geometry the record produced by the loop body
    has [count = valid + invalid], whether the statistics were computed,
    no pixel was valid, or masking raised and the substitute record was
    used. *)
Theorem count_is_valid_plus_invalid {geom} (np : numpy) (src : dataset geom)
    (name : string) (band geom_idx : nat) (g : geom) :
  ∃ rec log c v i,
    geom_step np src name band geom_idx g = (Ok rec, log)
    ∧ dict_get (name +:+ "_count") rec = Some (PInt c)
    ∧ dict_get (name +:+ "_valid") rec = Some (PInt v)
    ∧ dict_get (name +:+ "_invalid") rec = Some (PInt i)
    ∧ c = (v + i)%Z.
Proof.
  rewrite geom_step_eq. unfold geom_record, geom_log.
  destruct (mask_crop src g) as [e|out_image].
  - eexists (failed_record name), _, 0%Z, 0%Z, 0%Z.
    unfold failed_record. by rewrite get_count, get_valid, get_invalid.
  - destruct (pixel_stats_counts np name (nodata src) (out_image (band - 1)))
      as (Hc & Hv & Hi).
    exists (pixel_stats np name (nodata src) (out_image (band - 1))), [].
    eexists _, _, _. split; [done|].
    split; [exact Hc|]. split; [exact Hv|]. split; [exact Hi|]. lia.
Qed.


(** C6: a pixel is classified invalid exactly when it equals the declared
    sentinel under IEEE equality or, when no sentinel is declared, when it
    is not a finite real number: NaN or an infinity, as opposed to a zero
    or a finite non-zero value.  The [invalid] field counts the pixels so
    classified, the [valid] field the others, and the statistics range
    over the others. *)
Theorem validity_rule (np : numpy) (name : string) (nodata : option pixel)
    (data : list pixel) (i : nat) (x : pixel) :
  data !! i = Some x →
  (∃ valid, valid_mask nodata data !! i = Some valid
     ∧ match nodata with
       | Some nd => valid = false ↔ SFeqb x nd = true
       | None =>
           (valid = false ↔ x = S754_nan ∨ ∃ s, x = S754_infinity s)
           ∧ (valid = true
              ↔ (∃ s, x = S754_zero s) ∨ ∃ s m e, x = S754_finite s m e)
       end)
  ∧ dict_get (name +:+ "_invalid") (pixel_stats np name nodata data)
    = Some (PInt (Z.of_nat
        (length (filter (λ y, spec_invalid nodata y = true) data))))
  ∧ dict_get (name +:+ "_valid") (pixel_stats np name nodata data)
    = Some (PInt (Z.of_nat
        (length (filter (λ y, spec_invalid nodata y = false) data))))
  ∧ bool_index data (valid_mask nodata data)
    = filter (λ y, spec_invalid nodata y = false) data.
Proof.
  intros Hx. split; [|split; [|split]].
  - destruct nodata as [nd|]; unfold valid_mask;
      rewrite list_lookup_fmap, Hx; csimpl.
    + eexists; split; [done|]. by destruct (SFeqb x nd).
    + eexists; split; [done|].
      destruct x as [s|s| |s m e]; cbn [isfinite]; (split; split).
      * done.
      * intros [?|[? ?]]; done.
      * intros _. left. by exists s.
      * done.
      * intros _. right. by exists s.
      * done.
      * done.
      * intros [[? ?]|(? & ? & ? & ?)]; done.
      * intros _. by left.
      * done.
      * done.
      * intros [[? ?]|(? & ? & ? & ?)]; done.
      * done.
      * intros [?|[? ?]]; done.
      * intros _. right. by exists s, m, e.
      * done.
  - destruct (pixel_stats_counts np name nodata data) as (_ & _ & ->).
    by rewrite invalid_count_filter.
  - destruct (pixel_stats_counts np name nodata data) as (_ & -> & _).
    by rewrite valid_count_filter.
  - apply valid_data_filter.
Qed.

(** C9, as the code has it: when at least one pixel of the window is
    valid, min, max, mean and std of the record are what numpy's [min],
    [max], [mean] and [std] return for exactly the valid pixels of the
    window, in the order of the window, and [valid] is their number.  The
    code neither orders nor checks the four results. *)
Theorem statistics_over_valid_pixels {geom} (np : numpy) (src : dataset geom)
    (name : string) (band geom_idx : nat) (g : geom)
    (out_image : nat → list pixel) :
  mask_crop src g = inr out_image →
  let valid_data :=
    filter (λ x, spec_invalid (nodata src) x = false) (out_image (band - 1)) in
  valid_data ≠ [] →
  ∃ rec,
    geom_step np src name band geom_idx g = (Ok rec, [])
    ∧ dict_get (name +:+ "_valid") rec
      = Some (PInt (Z.of_nat (length valid_data)))
    ∧ dict_get (name +:+ "_min") rec = Some (PFloat (np_min np valid_data))
    ∧ dict_get (name +:+ "_max") rec = Some (PFloat (np_max np valid_data))
    ∧ dict_get (name +:+ "_mean") rec = Some (PFloat (np_mean np valid_data))
    ∧ dict_get (name +:+ "_std") rec = Some (PFloat (np_std np valid_data)).
Proof.
  intros Hmask valid_data Hvalid. subst valid_data.
  unfold geom_step. rewrite Hmask. eexists. split; [done|].
  unfold pixel_stats.
  rewrite valid_data_filter, valid_count_filter.
  destruct (filter _ _) as [|x r] eqn:Hf; [done|].
  cbn [length Nat.eqb].
  by rewrite get_valid, get_min, get_max, get_mean, get_std.
Qed.

(** ** Pixels outside the geometry *)

Lemma inside_values_cons (b : bool) (v : pixel) (r : list (bool * pixel)) :
  inside_values ((b, v) :: r)
  = if b then v :: inside_values r else inside_values r.
Proof.
  unfold inside_values. rewrite filter_cons.
  by destruct b.
Qed.

Lemma rasterio_fill_valid (nd : pixel) (w : list (bool * pixel)) :
  SFeqb nd nd = true →
  filter (λ x, spec_invalid (Some nd) x = false) (rasterio_fill (Some nd) w)
  = filter (λ x, spec_invalid (Some nd) x = false) (inside_values w).
Proof.
  intros Hnd.
  induction w as [|[inside v] r IH]; [done|].
  rewrite inside_values_cons. unfold rasterio_fill in *. csimpl.
  rewrite filter_cons. destruct inside.
  - rewrite filter_cons. case_decide; [f_equal|]; exact IH.
  - rewrite decide_False; [exact IH|]. cbn. by rewrite Hnd.
Qed.

(** C1, as the code has it: with a declared sentinel that equals itself,
    the pixels of the window outside the geometry are set to the sentinel;
    they are counted in [count] and in [invalid], and they enter neither
    [valid] nor min, max, mean and std, which are those of the pixels the
    geometry covers. *)
Theorem outside_pixels_filled_with_sentinel {geom} (np : numpy)
    (nd : pixel) (cnt : nat)
    (rasterize : geom → string + (nat → list (bool * pixel)))
    (name : string) (band geom_idx : nat) (g : geom)
    (window : nat → list (bool * pixel)) :
  SFeqb nd nd = true →
  rasterize g = inr window →
  let w := window (band - 1) in
  let covered := pixel_stats np name (Some nd) (inside_values w) in
  ∃ rec,
    geom_step np (rasterio_dataset (Some nd) cnt rasterize)
      name band geom_idx g = (Ok rec, [])
    ∧ dict_get (name +:+ "_min") rec = dict_get (name +:+ "_min") covered
    ∧ dict_get (name +:+ "_max") rec = dict_get (name +:+ "_max") covered
    ∧ dict_get (name +:+ "_mean") rec = dict_get (name +:+ "_mean") covered
    ∧ dict_get (name +:+ "_std") rec = dict_get (name +:+ "_std") covered
    ∧ dict_get (name +:+ "_valid") rec = dict_get (name +:+ "_valid") covered
    ∧ dict_get (name +:+ "_count") rec = Some (PInt (Z.of_nat (length w)))
    ∧ dict_get (name +:+ "_invalid") rec
      = Some (PInt (Z.of_nat (length w)
                    - Z.of_nat (count_nonzero
                                  (valid_mask (Some nd) (inside_values w))))).
Proof.
  intros Hnd Hwin w covered. subst covered.
  unfold geom_step. cbn [mask_crop rasterio_dataset nodata].
  rewrite Hwin. fold w. eexists. split; [done|].
  unfold pixel_stats.
  rewrite !valid_data_filter, !valid_count_filter, rasterio_fill_valid by done.
  assert (length (rasterio_fill (Some nd) w) = length w) as ->
    by (unfold rasterio_fill; apply length_fmap).
  destruct (length (filter _ (inside_values w))) as [|k]; cbn [Nat.eqb];
    by rewrite !get_min, !get_max, !get_mean, !get_std, !get_valid,
         get_count, get_invalid.
Qed.

(** ** [compute_statistics] returns one record per geometry *)

Lemma concat_nil_fmap {A B} (l : list A) :
  concat ((λ _, @nil B) <$> l) = [].
Proof. induction l; simpl; auto. Qed.

Lemma collect_band_stats_eq {geom} (np : numpy) (src : dataset geom)
    (shapes : list geom) (band_names : option (list string)) :
  collect_band_stats np src shapes band_names
  = (Ok (band_records np src shapes band_names <$> enumerate 0 (indexes src)),
     concat (band_log src shapes band_names <$> enumerate 0 (indexes src))).
Proof.
  unfold collect_band_stats.
  rewrite (for_each_total _
             (λ sl p, sl ++ [band_records np src shapes band_names p])
             (band_log src shapes band_names)).
  - by rewrite foldl_snoc.
  - intros sl [i band]. unfold emit. rewrite bind_ok. cbn [fst snd].
    rewrite (for_each_total _
               (λ bs q, bs ++ [geom_record np src
                                 (band_label band_names i band) band q.2])
               (λ q, geom_log src q.1 q.2)).
    + rewrite bind_ok, foldl_snoc. cbn [fst snd mret run_mret run_ret].
      unfold band_records, band_log. cbn [fst snd].
      by rewrite app_nil_r, app_nil_l, enumerate_fmap_snd.
    + intros bs [geom_idx g]. rewrite geom_step_eq, bind_ok.
      cbn [fst snd mret run_mret run_ret]. by rewrite app_nil_r.
Qed.

Lemma merge_stats_eq (n : nat) (stats_list : list (list dict)) :
  Forall (λ bs, length bs = n) stats_list →
  merge_stats n stats_list = (Ok (merged stats_list <$> seq 0 n), []).
Proof.
  intros Hlen. unfold merge_stats.
  rewrite (for_each_mem _ (λ cs i, cs ++ [merged stats_list i]) (λ _, [])).
  - by rewrite foldl_snoc, concat_nil_fmap.
  - intros cs i Hi.
    rewrite (for_each_mem _
               (λ acc (bs : list dict),
                  dict_update acc (default [] (bs !! i)))
               (λ _, [])).
    + rewrite bind_ok. cbn [fst snd mret run_mret run_ret].
      by rewrite concat_nil_fmap.
    + intros acc bs Hbs. apply elem_of_seq in Hi.
      rewrite Forall_forall in Hlen. specialize (Hlen bs Hbs).
      destruct (lookup_lt_is_Some_2 bs i) as [d ->]; [lia|done].
Qed.

Lemma compute_statistics_eq {geom} (np : numpy) (path : string)
    (src : dataset geom) (shapes : list geom)
    (band_names : option (list string)) :
  compute_statistics np path src shapes band_names
  = (Ok (merged (band_records np src shapes band_names
                   <$> enumerate 0 (indexes src))
           <$> seq 0 (length shapes)),
     (INFO, "Opening raster: " +:+ path)
     :: concat (band_log src shapes band_names <$> enumerate 0 (indexes src))).
Proof.
  unfold compute_statistics, emit.
  rewrite bind_ok. cbn [fst snd].
  rewrite collect_band_stats_eq, bind_ok, merge_stats_eq.
  - cbn [fst snd]. by rewrite app_nil_r.
  - apply Forall_fmap, Forall_forall. intros p _.
    unfold band_records. apply length_fmap.
Qed.

Lemma indexes_lookup {geom} (src : dataset geom) (i : nat) :
  i < count src → enumerate 0 (indexes src) !! i = Some (i, S i).
Proof.
  intros Hi. rewrite enumerate_lookup. unfold indexes.
  by rewrite lookup_seq_lt.
Qed.

Lemma elem_of_concat_fmap {A B} (f : A → list B) (l : list A) (a : A) (x : B) :
  a ∈ l → x ∈ f a → x ∈ concat (f <$> l).
Proof.
  intros Ha Hx. induction Ha as [a l|a b l Ha IH]; csimpl;
    apply elem_of_app; auto.
Qed.

Lemma enumerate_elem_of {A} (l : list A) (i : nat) (x : A) :
  l !! i = Some x → (i, x) ∈ enumerate 0 l.
Proof.
  intros Hx. apply (list_elem_of_lookup_2 _ i).
  by rewrite enumerate_lookup, Hx.
Qed.

Lemma band_label_lookup (names : list string) (i band : nat) :
  band_label (Some names) i band
  = match names !! i with
    | Some n => n
    | None => "band_" +:+ pretty band
    end.
Proof.
  unfold band_label.
  destruct names as [|n0 r]; [done|].
  rewrite bool_decide_eq_false_2 by done. cbn [negb andb].
  case_bool_decide as Hi.
  - by destruct (lookup_lt_is_Some_2 _ _ Hi) as [n ->].
  - rewrite lookup_ge_None_2; [done|lia].
Qed.

(** C5: when masking a geometry raises, every band's pass emits a
    warning naming the geometry index and records for that geometry the
    substitute record: min, max, mean and std null, count, valid and
    invalid 0, under the band's label; the other geometries get their
    own records, and [compute_statistics] returns one record per
    geometry without raising, so that the run goes on. *)
Theorem mask_failure_is_isolated {geom} (np : numpy) (path : string)
    (src : dataset geom) (shapes : list geom)
    (band_names : option (list string)) (geom_idx : nat) (g : geom)
    (e : string) :
  shapes !! geom_idx = Some g →
  mask_crop src g = inl e →
  ∃ stats_list log0 combined log,
    collect_band_stats np src shapes band_names = (Ok stats_list, log0)
    ∧ compute_statistics np path src shapes band_names = (Ok combined, log)
    ∧ length combined = length shapes
    ∧ ∀ i, i < count src →
        let name := band_label band_names i (S i) in
        (WARNING, "Failed to mask geometry " +:+ pretty geom_idx
                  +:+ ": " +:+ e) ∈ log
        ∧ ∃ band_stats,
            stats_list !! i = Some band_stats
            ∧ length band_stats = length shapes
            ∧ band_stats !! geom_idx
              = Some [ (name +:+ "_min", PNone); (name +:+ "_max", PNone);
                       (name +:+ "_mean", PNone); (name +:+ "_std", PNone);
                       (name +:+ "_count", PInt 0);
                       (name +:+ "_valid", PInt 0);
                       (name +:+ "_invalid", PInt 0) ]
            ∧ ∀ j g' rec lg,
                shapes !! j = Some g' →
                geom_step np src name (S i) j g' = (Ok rec, lg) →
                band_stats !! j = Some rec.
Proof.
  intros Hg Hmask.
  rewrite collect_band_stats_eq, compute_statistics_eq.
  eexists _, _, _, _. split; [done|]. split; [done|].
  split; [by rewrite length_fmap, length_seq|].
  intros i Hi name. split.
  - apply elem_of_cons. right.
    apply (elem_of_concat_fmap _ _ (i, S i)).
    { apply (list_elem_of_lookup_2 _ i). by apply indexes_lookup. }
    unfold band_log. apply elem_of_cons. right.
    apply (elem_of_concat_fmap _ _ (geom_idx, g)).
    { by apply enumerate_elem_of. }
    cbn beta. cbn [fst snd]. unfold geom_log. rewrite Hmask. by left.
  - exists (band_records np src shapes band_names (i, S i)).
    rewrite list_lookup_fmap, indexes_lookup by done.
    split; [done|]. unfold band_records. cbn [fst snd].
    split; [apply length_fmap|]. split.
    + rewrite list_lookup_fmap, Hg. csimpl.
      unfold geom_record. by rewrite Hmask.
    + intros j g' rec lg Hj Hstep. rewrite geom_step_eq in Hstep.
      injection Hstep as <- _. by rewrite list_lookup_fmap, Hj.
Qed.

(** C10: with fewer names than bands the compilation still returns one
    record per geometry; the band at position [i] keeps the supplied name
    when there is one and is labelled [band_<i+1>] otherwise, and its
    records are keyed by that label. *)
Theorem short_band_names_fall_back {geom} (np : numpy) (path : string)
    (src : dataset geom) (shapes : list geom) (names : list string) :
  length names < count src →
  ∃ stats_list log0 combined log,
    collect_band_stats np src shapes (Some names) = (Ok stats_list, log0)
    ∧ compute_statistics np path src shapes (Some names) = (Ok combined, log)
    ∧ length combined = length shapes
    ∧ ∀ i, i < count src →
        let label := band_label (Some names) i (S i) in
        (i < length names → names !! i = Some label)
        ∧ (length names ≤ i → label = "band_" +:+ pretty (S i))
        ∧ (INFO, "Processing " +:+ label +:+ " ...") ∈ log
        ∧ stats_list !! i = Some (geom_record np src label (S i) <$> shapes).
Proof.
  intros Hshort.
  rewrite collect_band_stats_eq, compute_statistics_eq.
  eexists _, _, _, _. split; [done|]. split; [done|].
  split; [by rewrite length_fmap, length_seq|].
  intros i Hi label. subst label. rewrite band_label_lookup.
  split; [|split; [|split]].
  - intros Hlt. by destruct (lookup_lt_is_Some_2 _ _ Hlt) as [n ->].
  - intros Hge. by rewrite lookup_ge_None_2.
  - apply elem_of_cons. right.
    apply (elem_of_concat_fmap _ _ (i, S i)).
    { apply (list_elem_of_lookup_2 _ i). by apply indexes_lookup. }
    unfold band_log. cbn [fst snd]. rewrite band_label_lookup. by left.
  - rewrite list_lookup_fmap, indexes_lookup by done. csimpl.
    unfold band_records. cbn [fst snd]. by rewrite band_label_lookup.
Qed.

(** ** Normalisation of an existing time series *)

Lemma convert_ts_mapping (recs : list (string * dict)) :
  convert_ts (mapping_of recs) = Ok ((λ kr, entry kr.1 kr.2) <$> recs).
Proof.
  unfold mapping_of, convert_ts.
  induction recs as [|[k rec] r IH]; csimpl; [done|].
  by rewrite IH.
Qed.

Lemma convert_ts_is_list (v : pyval) (l : list pyval) :
  convert_ts v = Ok l → convert_ts (PList l) = Ok l.
Proof. done. Qed.

(** C7: the normalisation is not total.  A date-keyed mapping whose
    value for some date is not itself a mapping, here a number or a null
    beside a proper record, makes [{"date": k, **v}] raise [TypeError];
    nothing catches it, and a run over several rasters ends with that
    exception before any raster is processed, instead of treating the
    value as an empty series. *)
Theorem convert_ts_raises_on_plain_value :
  convert_ts (PDict [("2023-01-01", PInt 3)]) = Raise TypeError
  ∧ convert_ts
      (PDict [ ("2023-01-01", PDict [("band_1_mean", PFloat (Float64.of_Z 3))]);
               ("2023-02-01", PNone) ])
    = Raise TypeError
  ∧ main Float64.np None ex_bad_gdf ex_tiffs = (Raise TypeError, []).
Proof. vm_compute. by repeat split. Qed.

(** ** Appending, raster after raster *)

Lemma append_stat_ok (key : string) (ts : list (list pyval)) (k : nat)
    (stat : dict) (l : list pyval) :
  ts !! k = Some l →
  append_stat key ts (k, stat)
  = (Ok (<[k := l ++ [entry key stat]]> ts), []).
Proof. intros Hl. unfold append_stat. cbn [fst snd]. by rewrite Hl. Qed.

Lemma append_loop (key : string) (stats : list dict) :
  ∀ (k : nat) (ts : list (list pyval)),
    k + length stats ≤ length ts →
    ∃ ts',
      for_each (append_stat key) ts (enumerate k stats) = (Ok ts', [])
      ∧ length ts' = length ts
      ∧ ∀ i, ts' !! i
             = if decide (k ≤ i) then
                 match stats !! (i - k) with
                 | Some stat => (λ l, l ++ [entry key stat]) <$> ts !! i
                 | None => ts !! i
                 end
               else ts !! i.
Proof.
  induction stats as [|stat r IH]; intros k ts Hlen; simpl in Hlen.
  - exists ts. split; [done|]. split; [done|].
    intros i. by case_decide.
  - destruct (lookup_lt_is_Some_2 ts k) as [l Hl]; [lia|].
    destruct (IH (S k) (<[k := l ++ [entry key stat]]> ts)) as (ts' & Hrun & Hlen' & Hts').
    { rewrite length_insert. lia. }
    exists ts'. split; [|split].
    + cbn [enumerate for_each].
      rewrite (append_stat_ok key ts k stat l Hl), bind_ok.
      by rewrite Hrun.
    + by rewrite Hlen', length_insert.
    + intros i. rewrite Hts'.
      destruct (decide (i = k)) as [->|Hne].
      * rewrite decide_False, decide_True by lia.
        rewrite Nat.sub_diag. cbn [lookup list_lookup].
        rewrite list_lookup_insert_eq, Hl by lia. done.
      * rewrite list_lookup_insert_ne by done.
        destruct (decide (S k ≤ i)) as [Hle|Hnle].
        -- rewrite decide_True by lia.
           by replace (i - k) with (S (i - S k)) by lia.
        -- by rewrite decide_False by lia.
Qed.

Lemma process_tiff_step {geom} (np : numpy) (band_names : option (list string))
    (shapes : list geom) (n_tiffs tiff_idx : nat) (tiff : string)
    (src : dataset geom) (key : string) (ts : list (list pyval)) :
  DateKey.date_key tiff = Ok key →
  length ts = length shapes →
  ∃ ts' log stats lg,
    process_tiff np band_names shapes n_tiffs ts (tiff_idx, (tiff, src))
    = (Ok ts', log)
    ∧ compute_statistics np tiff src shapes band_names = (Ok stats, lg)
    ∧ length ts' = length shapes
    ∧ ∀ i old, ts !! i = Some old →
        ∃ stat, stats !! i = Some stat
                ∧ ts' !! i = Some (old ++ [entry key stat]).
Proof.
  intros Hkey Hlen.
  unfold process_tiff, emit, lift. cbn [fst snd].
  rewrite bind_ok. cbn [fst snd]. rewrite Hkey, bind_ok. cbn [fst snd].
  rewrite compute_statistics_eq, bind_ok. cbn [fst snd].
  rewrite bind_ok. cbn [fst snd].
  set (stats := _ <$> seq 0 (length shapes)).
  assert (length stats = length shapes) as Hstats
    by (subst stats; by rewrite length_fmap, length_seq).
  destruct (append_loop key stats 0 ts) as (ts' & -> & Hlen' & Hts'); [lia|].
  eexists ts', _, stats, _. split; [done|]. split; [done|].
  split; [lia|].
  intros i old Hold.
  destruct (lookup_lt_is_Some_2 stats i) as [stat Hstat].
  { apply lookup_lt_Some in Hold. lia. }
  exists stat. split; [done|].
  rewrite Hts', decide_True, Nat.sub_0_r, Hstat, Hold by lia. done.
Qed.

Lemma process_loop {geom} (np : numpy) (band_names : option (list string))
    (shapes : list geom) (n_tiffs : nat)
    (tiffs : list (string * dataset geom)) (keys : list string) :
  Forall2 (λ t k, DateKey.date_key t.1 = Ok k) tiffs keys →
  ∀ (start : nat) (ts : list (list pyval)),
    length ts = length shapes →
    ∃ ts' log,
      for_each (process_tiff np band_names shapes n_tiffs) ts
        (enumerate start tiffs) = (Ok ts', log)
      ∧ length ts' = length shapes
      ∧ ∀ i old, ts !! i = Some old →
          ∃ series,
            ts' !! i = Some (old ++ series)
            ∧ length series = length tiffs
            ∧ ∀ j tiff src k,
                tiffs !! j = Some (tiff, src) → keys !! j = Some k →
                ∃ stats lg stat,
                  compute_statistics np tiff src shapes band_names
                  = (Ok stats, lg)
                  ∧ stats !! i = Some stat
                  ∧ series !! j = Some (entry k stat).
Proof.
  induction 1 as [|[tiff src] key tiffs keys Hkey _ IH]; intros start ts Hlen.
  - exists ts, []. split; [done|]. split; [done|].
    intros i old Hold. exists []. by rewrite app_nil_r.
  - destruct (process_tiff_step np band_names shapes n_tiffs start tiff src
                key ts Hkey Hlen) as (ts1 & log1 & stats & lg & Hrun & Hcs & Hlen1 & Hts1).
    destruct (IH (S start) ts1 Hlen1) as (ts' & log' & Hrun' & Hlen' & Hts').
    exists ts', (log1 ++ log'). split; [|split; [done|]].
    + cbn [enumerate for_each]. by rewrite Hrun, bind_ok, Hrun'.
    + intros i old Hold.
      destruct (Hts1 i old Hold) as (stat & Hstat & Hi1).
      destruct (Hts' i _ Hi1) as (series & Hi' & Hslen & Hseries).
      exists (entry key stat :: series).
      split; [by rewrite Hi', <- app_assoc|].
      split; [by rewrite !length_cons, Hslen|].
      intros [|j] tiff' src' k' Ht Hk; simpl in Ht, Hk.
      * injection Ht as -> ->. injection Hk as ->.
        by exists stats, lg, stat.
      * by apply Hseries.
Qed.

Lemma init_timeseries_ok {geom} (gdf : geodataframe geom) (i : nat)
    (old : list pyval) :
  starts_as gdf i old →
  ∃ ts0,
    init_timeseries gdf = (Ok ts0, [])
    ∧ length ts0 = length (geometry gdf)
    ∧ ts0 !! i = Some old.
Proof.
  unfold starts_as, init_timeseries.
  destruct (timeseries gdf) as [col|].
  - intros (Hlen & Hok & v & Hv & Hold).
    exists ((λ v, match convert_ts v with Ok l => l | Raise _ => [] end)
              <$> col).
    rewrite (for_each_mem _
               (λ acc v, acc ++ [match convert_ts v with
                                 | Ok l => l
                                 | Raise _ => []
                                 end])
               (λ _, [])).
    + rewrite foldl_snoc, concat_nil_fmap, length_fmap, list_lookup_fmap, Hv.
      csimpl. by rewrite Hold.
    + intros acc w Hw. rewrite Forall_forall in Hok.
      destruct (Hok w Hw) as [l ->]. unfold lift. by rewrite bind_ok.
  - intros [Hi ->]. eexists. split; [done|].
    rewrite length_replicate. split; [done|].
    by apply lookup_replicate_2.
Qed.

(** A run over several rasters whose keys are all extracted, on a column
    that normalises: every series ends as the series it started with
    followed by one entry per raster. *)
Lemma main_appends {geom} (np : numpy)
    (band_names : option (list string)) (gdf : geodataframe geom)
    (tiffs : list (string * dataset geom)) (keys : list string)
    (i : nat) (old : list pyval) :
  length tiffs ≠ 1 →
  Forall2 (λ t k, DateKey.date_key t.1 = Ok k) tiffs keys →
  starts_as gdf i old →
  ∃ ts log series,
    main np band_names gdf tiffs = (Ok (Timeseries ts), log)
    ∧ ts !! i = Some (old ++ series)
    ∧ length series = length tiffs
    ∧ ∀ j tiff src k,
        tiffs !! j = Some (tiff, src) → keys !! j = Some k →
        ∃ stats lg stat,
          compute_statistics np tiff src (geometry gdf) band_names
          = (Ok stats, lg)
          ∧ stats !! i = Some stat
          ∧ series !! j = Some (entry k stat).
Proof.
  intros Hmulti Hkeys Hstart.
  assert (main np band_names gdf tiffs
          = (ts0 ← init_timeseries gdf;
             ts ← for_each
                    (process_tiff np band_names (geometry gdf) (length tiffs))
                    ts0 (enumerate 1 tiffs);
             mret (Timeseries ts))) as ->.
  { unfold main. by destruct tiffs as [|[t s] [|t2 r]]. }
  destruct (init_timeseries_ok gdf i old Hstart) as (ts0 & -> & Hlen0 & Hi0).
  destruct (process_loop np band_names (geometry gdf) (length tiffs)
              tiffs keys Hkeys 1 ts0 Hlen0) as (ts & log & Hrun & _ & Hts).
  destruct (Hts i old Hi0) as (series & Hi & Hslen & Hseries).
  exists ts, (log ++ []), series.
  split; [|done].
  by rewrite bind_ok, Hrun, bind_ok.
Qed.

(** ** The temporal key *)

Lemma date_key_no_match (tiff : string) :
  DateKey.re_search (DateKey.basename tiff) = None →
  DateKey.date_key tiff = Ok (DateKey.basename tiff).
Proof.
  intros Hnone. unfold DateKey.date_key, DateKey.extract_date_from_filename.
  by rewrite Hnone.
Qed.

Lemma date_key_match (tiff m : string) (d : DateKey.datetime) :
  DateKey.re_search (DateKey.basename tiff) = Some m →
  DateKey.strptime_Ymd (DateKey.strip_seps m) = Ok d →
  DateKey.date_key tiff = Ok (DateKey.strftime_Ymd d).
Proof.
  intros Hm Hd. unfold DateKey.date_key, DateKey.extract_date_from_filename.
  by rewrite Hm, Hd.
Qed.

Example date_key_hyphens :
  DateKey.date_key "scene_2023-05-14.tif" = Ok "2023-05-14".
Proof. vm_compute. reflexivity. Qed.

Example date_key_compact :
  DateKey.date_key "scene_20230514_v2.tif" = Ok "2023-05-14".
Proof. vm_compute. reflexivity. Qed.

Example date_key_fallback :
  DateKey.date_key "tiles/scene_noDate.tif" = Ok "scene_noDate.tif".
Proof. vm_compute. reflexivity. Qed.

(** C2: the extraction is not total.  In [scene_20231345.tif] the pattern
    matches [20231345], which is no calendar date; [strptime] raises
    [ValueError], nothing catches it, and a run over that raster ends
    with the exception instead of using the file name as the key. *)
Theorem date_key_raises_on_impossible_date :
  DateKey.re_search "scene_20231345.tif" = Some "20231345"
  ∧ DateKey.date_key "data/scene_20231345.tif" = Raise ValueError
  ∧ (main Float64.np None ex_gdf
       (ex_tiffs ++ [("data/scene_20231345.tif", ex_src)])).1
    = Raise ValueError.
Proof. vm_compute. by repeat split. Qed.

(** C8: a run over several rasters does not always yield a series.  Over
    the four rasters of [ex_bad_tiffs] and features whose series all start
    empty, the third raster is [scene_20231345.tif]: its key raises
    [ValueError] (the defect shown for C2), the run ends there, after the
    line announcing that raster, and no feature gets a series of four
    entries, nor any series at all.  Over the first two rasters alone the
    run ends normally and every feature has two entries. *)
Theorem impossible_date_leaves_no_series :
  timeseries ex_gdf = None
  ∧ length ex_bad_tiffs = 4
  ∧ (∃ log,
       main Float64.np None ex_gdf ex_bad_tiffs = (Raise ValueError, log)
       ∧ last log
         = Some (INFO, "[3/4] Processing TIFF: data/scene_20231345.tif"))
  ∧ ∃ ts log,
      main Float64.np None ex_gdf (take 2 ex_bad_tiffs)
      = (Ok (Timeseries ts), log)
      ∧ length <$> ts = [2; 2; 2].
Proof.
  split; [reflexivity|]. split; [reflexivity|]. split.
  - eexists. split; vm_compute; reflexivity.
  - eexists _, _. split; vm_compute; reflexivity.
Qed.

(** ** Examples *)

(** C1, refuted as stated: for [ex_window], whose third pixel lies outside
    the geometry, the record counts four pixels, one of them invalid,
    although the geometry covers three pixels, all valid; the record is
    not the one computed from the covered pixels alone. *)
Lemma outside_pixel_is_counted :
  ∃ rec,
    geom_step Float64.np ex_src "band_1" 1 0 0 = (Ok rec, [])
    ∧ dict_get "band_1_count" rec = Some (PInt 4)
    ∧ dict_get "band_1_invalid" rec = Some (PInt 1)
    ∧ length (inside_values ex_window) = 3
    ∧ count_nonzero (valid_mask (Some ex_nodata) (inside_values ex_window)) = 3
    ∧ rec ≠ pixel_stats Float64.np "band_1" (Some ex_nodata)
              (inside_values ex_window).
Proof.
  eexists. split; [vm_compute; reflexivity|].
  repeat split; try (vm_compute; reflexivity).
  vm_compute. intros Heq. discriminate Heq.
Qed.

(** The amended C1 at [ex_window]: the sentinel equals itself, and the
    record counts the four pixels of the window. *)
Lemma outside_pixels_filled_with_sentinel_witness :
  SFeqb ex_nodata ex_nodata = true
  ∧ ex_rasterize 0 = inr (λ _, ex_window)
  ∧ ∃ rec,
      geom_step Float64.np ex_src "band_1" 1 0 0 = (Ok rec, [])
      ∧ dict_get "band_1_valid" rec = Some (PInt 3)
      ∧ dict_get "band_1_count" rec = Some (PInt 4)
      ∧ dict_get "band_1_invalid" rec = Some (PInt 1).
Proof.
  split; [reflexivity|]. split; [reflexivity|].
  destruct (outside_pixels_filled_with_sentinel Float64.np ex_nodata 1
              ex_rasterize "band_1" 1 0 0 (λ _, ex_window)
              eq_refl eq_refl)
    as (rec & Hrun & _ & _ & _ & _ & Hvalid & Hcount & Hinvalid).
  exists rec. split; [exact Hrun|].
  split; [exact Hvalid|]. split; [exact Hcount|exact Hinvalid].
Defined.


(** C5 at [ex_gdf], whose second geometry lies off the raster: the
    warning, the substitute record of band 1, and three records in all. *)
Lemma mask_failure_is_isolated_witness :
  geometry ex_gdf !! 1 = Some 2
  ∧ mask_crop ex_src 2 = inl "Input shapes do not overlap raster."
  ∧ ∃ stats_list log0 combined log band_stats,
      collect_band_stats Float64.np ex_src (geometry ex_gdf) None
      = (Ok stats_list, log0)
      ∧ compute_statistics Float64.np "a.tif" ex_src (geometry ex_gdf) None
        = (Ok combined, log)
      ∧ length combined = 3
      ∧ (WARNING, "Failed to mask geometry 1: Input shapes do not overlap raster.")
        ∈ log
      ∧ stats_list !! 0 = Some band_stats
      ∧ band_stats !! 1
        = Some [ ("band_1_min", PNone); ("band_1_max", PNone);
                 ("band_1_mean", PNone); ("band_1_std", PNone);
                 ("band_1_count", PInt 0); ("band_1_valid", PInt 0);
                 ("band_1_invalid", PInt 0) ].
Proof.
  split; [reflexivity|]. split; [reflexivity|].
  destruct (mask_failure_is_isolated Float64.np "a.tif" ex_src
              (geometry ex_gdf) None 1 2
              "Input shapes do not overlap raster." eq_refl eq_refl)
    as (stats_list & log0 & combined & log & Hcollect & Hrun & Hlen & Hbands).
  destruct (Hbands 0) as (Hwarn & band_stats & Hband & _ & Hrec & _);
    [simpl; lia|].
  exists stats_list, log0, combined, log, band_stats.
  split; [exact Hcollect|]. split; [exact Hrun|]. split; [exact Hlen|].
  split; [exact Hwarn|]. split; [exact Hband|]. exact Hrec.
Defined.

(** C6 at a pixel that holds the sentinel of a raster with sentinel
    -9999, and at an infinite pixel of a raster without sentinel: each is
    the one invalid pixel of its window. *)
Lemma validity_rule_witness :
  ([Float64.of_Z 1; ex_nodata; Float64.of_Z 4] !! 1 = Some ex_nodata
   ∧ valid_mask (Some ex_nodata) [Float64.of_Z 1; ex_nodata; Float64.of_Z 4]
     = [true; false; true]
   ∧ dict_get "band_1_invalid"
       (pixel_stats Float64.np "band_1" (Some ex_nodata)
          [Float64.of_Z 1; ex_nodata; Float64.of_Z 4])
     = Some (PInt 1))
  ∧ ([Float64.of_Z 1; S754_infinity true; S754_zero false] !! 1
     = Some (S754_infinity true)
     ∧ valid_mask None [Float64.of_Z 1; S754_infinity true; S754_zero false]
       = [true; false; true]
     ∧ dict_get "band_1_invalid"
         (pixel_stats Float64.np "band_1" None
            [Float64.of_Z 1; S754_infinity true; S754_zero false])
       = Some (PInt 1)
     ∧ dict_get "band_1_valid"
         (pixel_stats Float64.np "band_1" None
            [Float64.of_Z 1; S754_infinity true; S754_zero false])
       = Some (PInt 2)).
Proof.
  split.
  - split; [reflexivity|]. split; [reflexivity|].
    destruct (validity_rule Float64.np "band_1" (Some ex_nodata)
                [Float64.of_Z 1; ex_nodata; Float64.of_Z 4] 1 ex_nodata
                eq_refl)
      as (_ & Hinvalid & _).
    exact Hinvalid.
  - split; [reflexivity|]. split; [reflexivity|].
    destruct (validity_rule Float64.np "band_1" None
                [Float64.of_Z 1; S754_infinity true; S754_zero false] 1
                (S754_infinity true) eq_refl)
      as (_ & Hinvalid & Hvalid & _).
    split; [exact Hinvalid|exact Hvalid].
Defined.

(** C9, refuted as stated.  For a raster with sentinel -9999 and the
    pixels 1, NaN, 4, all three are valid, since NaN differs from the
    sentinel, and min, mean, max and std are NaN: none of [min <= mean],
    [mean <= max] and [0 <= std] holds.  For a raster without sentinel
    and three pixels 0.1, the mean is rounded to the next number above
    0.1 and exceeds max. *)
Lemma statistics_not_ordered :
  (∃ rec mn mean mx sd,
     geom_step Float64.np ex_nan_src "band_1" 1 0 0 = (Ok rec, [])
     ∧ dict_get "band_1_valid" rec = Some (PInt 3)
     ∧ dict_get "band_1_min" rec = Some (PFloat mn)
     ∧ dict_get "band_1_mean" rec = Some (PFloat mean)
     ∧ dict_get "band_1_max" rec = Some (PFloat mx)
     ∧ dict_get "band_1_std" rec = Some (PFloat sd)
     ∧ SFleb mn mean = false
     ∧ SFleb mean mx = false
     ∧ SFleb (S754_zero false) sd = false)
  ∧ ∃ rec mean,
      geom_step Float64.np ex_tenth_src "band_1" 1 0 0 = (Ok rec, [])
      ∧ dict_get "band_1_valid" rec = Some (PInt 3)
      ∧ dict_get "band_1_min" rec = Some (PFloat ex_tenth)
      ∧ dict_get "band_1_max" rec = Some (PFloat ex_tenth)
      ∧ dict_get "band_1_mean" rec = Some (PFloat mean)
      ∧ SFleb mean ex_tenth = false
      ∧ SFltb ex_tenth mean = true.
Proof.
  split.
  - eexists _, _, _, _, _. split; [vm_compute; reflexivity|].
    repeat split; vm_compute; reflexivity.
  - eexists _, _. split; [vm_compute; reflexivity|].
    repeat split; vm_compute; reflexivity.
Qed.

(** The amended C9 at [ex_window]: the valid pixels are 1, 2 and 4, the
    outside pixel holding the sentinel; min is 1 and max is 4. *)
Lemma statistics_over_valid_pixels_witness :
  mask_crop ex_src 0 = inr (λ _, rasterio_fill (Some ex_nodata) ex_window)
  ∧ filter (λ x, spec_invalid (nodata ex_src) x = false)
      (rasterio_fill (Some ex_nodata) ex_window)
    = [Float64.of_Z 1; Float64.of_Z 2; Float64.of_Z 4]
  ∧ ∃ rec,
      geom_step Float64.np ex_src "band_1" 1 0 0 = (Ok rec, [])
      ∧ dict_get "band_1_valid" rec = Some (PInt 3)
      ∧ dict_get "band_1_min" rec = Some (PFloat (Float64.of_Z 1))
      ∧ dict_get "band_1_max" rec = Some (PFloat (Float64.of_Z 4)).
Proof.
  split; [reflexivity|]. split; [vm_compute; reflexivity|].
  destruct (statistics_over_valid_pixels Float64.np ex_src "band_1" 1 0 0
              (λ _, rasterio_fill (Some ex_nodata) ex_window) eq_refl)
    as (rec & Hrun & Hvalid & Hmin & Hmax & _).
  { vm_compute. intros Heq. discriminate Heq. }
  exists rec. split; [exact Hrun|]. split; [exact Hvalid|].
  split; [exact Hmin|exact Hmax].
Defined.

(** C10 at a raster of two bands and a single name. *)
Lemma short_band_names_fall_back_witness :
  length ["red"] < count ex_src2
  ∧ band_label (Some ["red"]) 0 1 = "red"
  ∧ band_label (Some ["red"]) 1 2 = "band_2"
  ∧ ∃ combined log,
      compute_statistics Float64.np "a.tif" ex_src2 [0; 2] (Some ["red"])
      = (Ok combined, log)
      ∧ length combined = 2.
Proof.
  assert (length ["red"] < count ex_src2) as Hshort by (simpl; lia).
  split; [exact Hshort|].
  destruct (short_band_names_fall_back Float64.np "a.tif" ex_src2 [0; 2]
              ["red"] Hshort)
    as (stats_list & log0 & combined & log & _ & Hrun & Hlen & Hbands).
  split; [vm_compute; reflexivity|]. split; [vm_compute; reflexivity|].
  exists combined, log. split; [exact Hrun|exact Hlen].
Defined.

(** The first end-to-end scenario of the specification: one band, sentinel
    -9999, pixels 1, 2, -9999, 4, all covered by the geometry. *)
Example scenario_single_raster :
  pixel_stats Float64.np "band_1" (Some ex_nodata)
    [Float64.of_Z 1; Float64.of_Z 2; ex_nodata; Float64.of_Z 4]
  = stats_dict "band_1"
      (PFloat (Float64.of_Z 1)) (PFloat (Float64.of_Z 4))
      (PFloat (SFdiv Float64.prec Float64.emax
                 (Float64.of_Z 7) (Float64.of_Z 3)))
      (PFloat (Float64.std
                 [Float64.of_Z 1; Float64.of_Z 2; Float64.of_Z 4]))
      4 3 1.
Proof. vm_compute. reflexivity. Qed.

(** A raster processed twice gives two entries with the same date. *)
Example same_date_appended_twice :
  ∃ ts log e,
    main Float64.np None ex_gdf
      [ ("scene_2023-01-01.tif", ex_src); ("scene_2023-01-01.tif", ex_src) ]
    = (Ok (Timeseries ts), log)
    ∧ ts !! 0 = Some [e; e]
    ∧ ∃ fields, e = PDict fields
                ∧ dict_get "date" fields = Some (PStr "2023-01-01").
Proof.
  eexists _, _, _. split; [vm_compute; reflexivity|].
  split; [reflexivity|]. eexists. split; reflexivity.
Qed.


(** * Further properties of the code *)

(** ** resample.py: the overview factors *)

Lemma factors_loop_spec (min_dim : N) (n : nat) :
  ∀ (f : N) (acc : list N),
    (0 < f)%N →
    (min_dim < 65 * f * 2 ^ N.of_nat n)%N →
    ∃ k, k ≤ n
      ∧ Resample.factors_loop (S n) min_dim f acc
        = Some (acc ++ ((λ j, f * 2 ^ N.of_nat j)%N <$> seq 0 k))
      ∧ (∀ j, j < k → (65 * f * 2 ^ N.of_nat j ≤ min_dim)%N)
      ∧ (min_dim < 65 * f * 2 ^ N.of_nat k)%N.
Proof.
  induction n as [|n IH]; intros f acc Hf Hbound.
  - exists 0. split; [done|]. split; [|split; [lia|done]].
    cbn [Resample.factors_loop].
    assert (min_dim / f < 65)%N as Hq
      by (apply N.Div0.div_lt_upper_bound; simpl in Hbound; lia).
    rewrite (proj2 (N.ltb_ge 64 (min_dim / f))) by lia.
    by rewrite app_nil_r.
  - cbn [Resample.factors_loop].
    destruct (64 <? min_dim / f)%N eqn:Hcond.
    + apply N.ltb_lt in Hcond.
      assert (65 * f ≤ min_dim)%N as Hlow.
      { pose proof (N.Div0.mul_div_le min_dim f). nia. }
      destruct (IH (f * 2)%N (acc ++ [f])) as (k & Hk & Hrun & Hall & Hstop).
      { lia. }
      { rewrite Nat2N.inj_succ, N.pow_succ_r' in Hbound. lia. }
      exists (S k). split; [lia|]. split; [|split].
      * change (Resample.factors_loop (S n) min_dim (f * 2) (acc ++ [f])
                = Some (acc ++ ((λ j, f * 2 ^ N.of_nat j)%N <$> seq 0 (S k)))).
        rewrite Hrun, <- app_assoc. do 2 f_equal.
        cbn [seq fmap list_fmap]. rewrite N.mul_1_r. f_equal.
        rewrite <- fmap_S_seq, <- list_fmap_compose.
        apply list_fmap_ext. intros _ j _. cbn [compose].
        rewrite Nat2N.inj_succ, N.pow_succ_r'. lia.
      * intros [|j] Hj.
        -- cbn. lia.
        -- specialize (Hall j ltac:(lia)).
           rewrite Nat2N.inj_succ, N.pow_succ_r'. lia.
      * rewrite Nat2N.inj_succ, N.pow_succ_r'. lia.
    + apply N.ltb_ge in Hcond.
      exists 0. split; [lia|]. split; [by rewrite app_nil_r|].
      split; [lia|]. cbn.
      pose proof (N.mul_succ_div_gt min_dim f ltac:(lia)). nia.
Qed.

Lemma size_nat_bound (n : N) : (n < 2 ^ N.of_nat (N.size_nat n))%N.
Proof.
  destruct n as [|p]; [done|].
  cbn [N.size_nat].
  induction p as [p IH|p IH|]; cbn [Pos.size_nat];
    rewrite ?Nat2N.inj_succ, ?N.pow_succ_r'; lia.
Qed.

Lemma overview_factors_spec (xsize ysize : N) :
  ∃ k,
    Resample.overview_factors xsize ysize
    = Some ((λ j, 2 ^ N.of_nat (S j))%N <$> seq 0 k)
    ∧ ∀ j, 1 ≤ j →
        (j ≤ k ↔ (64 < N.min xsize ysize / 2 ^ N.of_nat j)%N).
Proof.
  unfold Resample.overview_factors.
  set (min_dim := N.min xsize ysize).
  destruct (factors_loop_spec min_dim (N.size_nat min_dim) 2 [])
    as (k & _ & Hrun & Hall & Hstop).
  { lia. }
  { pose proof (size_nat_bound min_dim). lia. }
  exists k. split.
  - rewrite Hrun. cbn [app]. f_equal. apply list_fmap_ext.
    intros _ j _. rewrite Nat2N.inj_succ, N.pow_succ_r'. lia.
  - intros j Hj.
    assert (0 < 2 ^ N.of_nat j)%N as Hpos
      by (apply N.neq_0_lt_0, N.pow_nonzero; lia).
    assert ((64 < min_dim / 2 ^ N.of_nat j)%N
            ↔ (65 * 2 ^ N.of_nat j ≤ min_dim)%N) as ->.
    { split.
      - intros Hq. pose proof (N.Div0.mul_div_le min_dim (2 ^ N.of_nat j)). nia.
      - intros Hfit.
        pose proof (N.mul_succ_div_gt min_dim (2 ^ N.of_nat j) ltac:(lia)).
        nia. }
    destruct j as [|j]; [lia|]. rewrite Nat2N.inj_succ, N.pow_succ_r'. split.
    + intros Hle. specialize (Hall j ltac:(lia)). lia.
    + intros Hfit. destruct (decide (S j ≤ k)) as [|Hgt]; [done|].
      exfalso.
      assert (2 ^ N.of_nat k ≤ 2 ^ N.of_nat j)%N
        by (apply N.pow_le_mono_r; lia).
      nia.
Qed.

(** X1: for every raster size the loop terminates, and the factors are
    the powers of two 2, 4, ..., 2^k: a power of two is a factor exactly
    when the smaller dimension divided by it, rounded down, exceeds 64. *)
Theorem overview_factors_powers (xsize ysize : N) :
  ∃ k,
    Resample.overview_factors xsize ysize
    = Some ((λ j, 2 ^ N.of_nat (S j))%N <$> seq 0 k)
    ∧ ∀ j, 1 ≤ j →
        (j ≤ k ↔ (64 < N.min xsize ysize / 2 ^ N.of_nat j)%N).
Proof. apply overview_factors_spec. Qed.

(** X2: [BuildOverviews] is called exactly when the smaller dimension is
    at least 130 pixels; below that a raster gets no overview at all. *)
Theorem overviews_built_from_130 (xsize ysize : N) :
  Resample.builds_overviews xsize ysize = true
  ↔ (130 ≤ N.min xsize ysize)%N.
Proof.
  unfold Resample.builds_overviews.
  destruct (overview_factors_spec xsize ysize) as (k & -> & Hk).
  specialize (Hk 1 ltac:(lia)). change (2 ^ N.of_nat 1)%N with 2%N in Hk.
  assert ((64 < N.min xsize ysize / 2)%N ↔ (130 ≤ N.min xsize ysize)%N) as Hdiv.
  { split; intros H.
    - pose proof (N.Div0.mul_div_le (N.min xsize ysize) 2). lia.
    - pose proof (N.mul_succ_div_gt (N.min xsize ysize) 2 ltac:(lia)). lia. }
  rewrite <- Hdiv, <- Hk.
  destruct k as [|k]; cbn [seq fmap list_fmap]; split; intros H;
    first [done | lia].
Qed.

(** ** resample.py: the names of the outputs *)

Lemma rfind_bounds (c : ascii) (p : list ascii) :
  (-1 ≤ Resample.rfind c p < Z.of_nat (length p))%Z.
Proof.
  induction p as [|x r IH]; cbn [Resample.rfind length]; [lia|].
  destruct (0 <=? Resample.rfind c r)%Z eqn:Hi; [lia|].
  case_bool_decide; lia.
Qed.

Lemma rfind_absent (c : ascii) (p : list ascii) :
  c ∉ p ↔ Resample.rfind c p = (-1)%Z.
Proof.
  induction p as [|x r IH]; cbn [Resample.rfind].
  - split; [done|]. intros _. apply not_elem_of_nil.
  - rewrite not_elem_of_cons, IH.
    pose proof (rfind_bounds c r).
    destruct (0 <=? Resample.rfind c r)%Z eqn:Hi.
    + apply Z.leb_le in Hi. split; [intros [_ ?]|]; lia.
    + apply Z.leb_gt in Hi. case_bool_decide as Hx.
      * split; [intros [? _]; congruence|lia].
      * split; [done|]. intros _. split; [congruence|lia].
Qed.

Lemma rfind_app (c : ascii) (a b : list ascii) :
  Resample.rfind c (a ++ b)
  = if (0 <=? Resample.rfind c b)%Z
    then (Z.of_nat (length a) + Resample.rfind c b)%Z
    else Resample.rfind c a.
Proof.
  induction a as [|x a IH]; cbn [app Resample.rfind length].
  - destruct (0 <=? Resample.rfind c b)%Z eqn:Hb; [lia|].
    apply Z.leb_gt in Hb. pose proof (rfind_bounds c b). lia.
  - rewrite IH. pose proof (rfind_bounds c b).
    destruct (0 <=? Resample.rfind c b)%Z eqn:Hb.
    + apply Z.leb_le in Hb.
      rewrite (proj2 (Z.leb_le 0 _)) by lia. lia.
    + done.
Qed.

(** The last occurrence splits the path. *)
Lemma rfind_split (c : ascii) (p : list ascii) :
  (0 ≤ Resample.rfind c p)%Z →
  ∃ b, drop (Z.to_nat (Resample.rfind c p)) p = c :: b ∧ c ∉ b.
Proof.
  induction p as [|x r IH]; cbn [Resample.rfind]; [lia|].
  pose proof (rfind_bounds c r).
  destruct (0 <=? Resample.rfind c r)%Z eqn:Hi.
  - apply Z.leb_le in Hi. intros _.
    destruct (IH Hi) as (b & Hb & Hnot). exists b. split; [|done].
    replace (Z.to_nat (Resample.rfind c r + 1))
      with (S (Z.to_nat (Resample.rfind c r))) by lia.
    done.
  - apply Z.leb_gt in Hi. case_bool_decide as Hx; [|lia].
    intros _. exists r. subst x. split; [done|].
    apply rfind_absent. lia.
Qed.

Lemma rfind_last (c : ascii) (a b : list ascii) :
  c ∉ b → Resample.rfind c (a ++ c :: b) = Z.of_nat (length a).
Proof.
  intros Hb. rewrite rfind_app. cbn [Resample.rfind].
  apply rfind_absent in Hb. rewrite Hb. cbn.
  rewrite bool_decide_eq_true_2 by done. cbn. lia.
Qed.

Lemma rfind_ge (c : ascii) (p : list ascii) (j : nat) :
  p !! j = Some c → (Z.of_nat j ≤ Resample.rfind c p)%Z.
Proof.
  revert j. induction p as [|x r IH]; intros [|j] Hj; try done;
    cbn [Resample.rfind]; pose proof (rfind_bounds c r).
  - injection Hj as ->.
    destruct (0 <=? Resample.rfind c r)%Z; [lia|].
    rewrite bool_decide_eq_true_2 by done. lia.
  - specialize (IH j Hj).
    rewrite (proj2 (Z.leb_le 0 _)) by lia. lia.
Qed.

Lemma rfind_drop (c : ascii) (p : list ascii) (n : nat) :
  (Resample.rfind c p < Z.of_nat n)%Z → c ∉ drop n p.
Proof.
  intros Hlt Hin. apply list_elem_of_lookup in Hin as [j Hj].
  rewrite lookup_drop in Hj. apply rfind_ge in Hj. lia.
Qed.

Lemma rfind_suffix_dot (a : list ascii) :
  Resample.rfind "." (a ++ Resample.matched_suffix) = Resample.rfind "." a.
Proof. by rewrite rfind_app. Qed.

Lemma rfind_suffix_sep (a : list ascii) :
  Resample.rfind "/" (a ++ Resample.matched_suffix) = Resample.rfind "/" a.
Proof. by rewrite rfind_app. Qed.

Lemma splitext_parts (p : list ascii) :
  (Resample.splitext p).1 ++ (Resample.splitext p).2 = p
  ∧ ((Resample.splitext p).2 = []
     ∨ ∃ rest, (Resample.splitext p).2 = "."%char :: rest
               ∧ ("."%char ∉ rest) ∧ ("/"%char ∉ rest)).
Proof.
  unfold Resample.splitext.
  destruct (Resample.rfind "/" p <? Resample.rfind "." p)%Z eqn:Hlt;
    [|split; [apply app_nil_r|by left]].
  destruct (existsb _ _); [|split; [apply app_nil_r|by left]].
  cbn [fst snd]. split; [apply take_drop|]. right.
  apply Z.ltb_lt in Hlt. pose proof (rfind_bounds "/" p).
  destruct (rfind_split "." p) as (rest & Hrest & Hdot); [lia|].
  exists rest. split; [done|]. split; [done|].
  assert ("/"%char ∉ drop (Z.to_nat (Resample.rfind "." p)) p) as Hsep
    by (apply rfind_drop; lia).
  rewrite Hrest in Hsep. apply not_elem_of_cons in Hsep as [_ Hsep]. done.
Qed.

Lemma matched_name_splitext_eq (p : list ascii) :
  Resample.splitext (Resample.matched_name p)
  = ((Resample.splitext p).1 ++ Resample.matched_suffix, (Resample.splitext p).2).
Proof.
  unfold Resample.matched_name.
  destruct (Resample.splitext p) as [base ext] eqn:Hsplit. cbn [fst snd].
  pose proof (rfind_bounds "/" p) as Hsep.
  pose proof (rfind_bounds "." p) as Hdot.
  unfold Resample.splitext in Hsplit.
  destruct (Resample.rfind "/" p <? Resample.rfind "." p)%Z eqn:Hlt.
  - apply Z.ltb_lt in Hlt.
    destruct (existsb _ (Resample.slice _ _ p)) eqn:Hdots.
    + (* the input has an extension *)
      injection Hsplit as <- <-.
      destruct (rfind_split "." p) as (rest & Hrest & Hnodot); [lia|].
      assert ("/"%char ∉ rest) as Hnosep.
      { assert ("/"%char ∉ drop (Z.to_nat (Resample.rfind "." p)) p) as H
          by (apply rfind_drop; lia).
        rewrite Hrest in H. apply not_elem_of_cons in H as [_ H]. done. }
      set (base := take (Z.to_nat (Resample.rfind "." p)) p) in *.
      assert (p = base ++ "."%char :: rest) as Hp
        by (rewrite <- Hrest; symmetry; apply take_drop).
      rewrite Hrest. rewrite (app_assoc base).
      unfold Resample.splitext.
      rewrite (rfind_last "."%char) by done.
      assert (Resample.rfind "/" ((base ++ Resample.matched_suffix) ++ "."%char :: rest)
              = Resample.rfind "/" base) as ->.
      { rewrite rfind_app.
        assert (Resample.rfind "/" ("."%char :: rest) = (-1)%Z) as ->.
        { apply rfind_absent, not_elem_of_cons. by split. }
        cbn [Z.leb Z.compare]. apply rfind_suffix_sep. }
      pose proof (rfind_bounds "/" base) as Hsb.
      rewrite length_app.
      rewrite (proj2 (Z.ltb_lt _ _)) by lia.
      assert (existsb (λ c, negb (bool_decide (c = "."%char)))
                (Resample.slice (Resample.rfind "/" base + 1)
                   (Z.of_nat (length base + length Resample.matched_suffix))
                   ((base ++ Resample.matched_suffix) ++ "."%char :: rest)) = true)
        as ->.
      { unfold Resample.slice.
        rewrite drop_app_le by (rewrite length_app; lia).
        rewrite take_app_le
          by (rewrite length_drop, length_app; lia).
        rewrite drop_app_le by lia.
        rewrite take_app_ge by (rewrite length_drop; lia).
        rewrite existsb_app. apply orb_true_iff. right.
        rewrite length_drop.
        replace (Z.to_nat (Z.of_nat (length base + length Resample.matched_suffix)
                           - (Resample.rfind "/" base + 1))
                 - (length base - Z.to_nat (Resample.rfind "/" base + 1)))
          with (length Resample.matched_suffix) by lia.
        reflexivity. }
      rewrite Nat2Z.id.
      rewrite take_app_length', drop_app_length'
        by (by rewrite length_app).
      done.
    + (* only dots before the last dot of the last component *)
      injection Hsplit as <- <-. rewrite app_nil_r.
      unfold Resample.splitext.
      rewrite rfind_suffix_dot, rfind_suffix_sep.
      rewrite (proj2 (Z.ltb_lt _ _)) by lia.
      assert (Resample.slice (Resample.rfind "/" p + 1) (Resample.rfind "." p)
                (p ++ Resample.matched_suffix)
              = Resample.slice (Resample.rfind "/" p + 1)
                  (Resample.rfind "." p) p) as ->.
      { unfold Resample.slice.
        rewrite drop_app_le by lia.
        by rewrite take_app_le by (rewrite length_drop; lia). }
      by rewrite Hdots.
  - (* no dot in the last component *)
    injection Hsplit as <- <-. rewrite app_nil_r.
    unfold Resample.splitext.
    by rewrite rfind_suffix_dot, rfind_suffix_sep, Hlt.
Qed.

(** X3: the output name has the base of the input followed by
    [_matched], and the same extension: splitting it again gives exactly
    these two parts. *)
Theorem matched_name_splitext (p : list ascii) :
  Resample.splitext (Resample.matched_name p)
  = ((Resample.splitext p).1 ++ Resample.matched_suffix,
     (Resample.splitext p).2).
Proof. apply matched_name_splitext_eq. Qed.

Lemma splitext_ext_no_sep (p : list ascii) :
  "/"%char ∉ (Resample.splitext p).2.
Proof.
  destruct (splitext_parts p) as [_ [->|(rest & -> & _ & Hsep)]].
  - apply not_elem_of_nil.
  - apply not_elem_of_cons. by split.
Qed.

Lemma matched_name_eq (p : list ascii) :
  Resample.matched_name p
  = (Resample.splitext p).1 ++ Resample.matched_suffix ++ (Resample.splitext p).2.
Proof. unfold Resample.matched_name. by destruct (Resample.splitext p). Qed.

(** X4: the output name is the input name with [_matched] inserted before
    its extension; the extension is empty or one dot followed by characters
    that are neither dots nor slashes, so the suffix always lands in the
    last component of the path. *)
Theorem matched_name_inserts_suffix (p : list ascii) :
  ∃ base ext,
    p = base ++ ext
    ∧ Resample.matched_name p = base ++ Resample.matched_suffix ++ ext
    ∧ (ext = []
       ∨ ∃ rest, ext = "."%char :: rest
                 ∧ ("."%char ∉ rest) ∧ ("/"%char ∉ rest)).
Proof.
  exists (Resample.splitext p).1, (Resample.splitext p).2.
  destruct (splitext_parts p) as [Hp Hext].
  split; [done|]. split; [apply matched_name_eq|done].
Qed.

(** X5: the output lies in the directory of the input: the last slash
    stays where it was and everything up to it is unchanged; the name is
    eight characters longer. *)
Theorem matched_name_same_directory (p : list ascii) :
  let sep := Resample.rfind "/" p in
  Resample.rfind "/" (Resample.matched_name p) = sep
  ∧ take (Z.to_nat (sep + 1)) (Resample.matched_name p)
    = take (Z.to_nat (sep + 1)) p
  ∧ length (Resample.matched_name p) = length p + 8.
Proof.
  cbn zeta. rewrite matched_name_eq.
  destruct (splitext_parts p) as [Hp _].
  pose proof (splitext_ext_no_sep p) as Hsep.
  destruct (Resample.splitext p) as [base ext]. cbn [fst snd] in *. subst p.
  apply rfind_absent in Hsep.
  assert (Resample.rfind "/" (base ++ ext) = Resample.rfind "/" base) as ->
    by (by rewrite rfind_app, Hsep).
  assert (Resample.rfind "/" (base ++ Resample.matched_suffix ++ ext)
          = Resample.rfind "/" base) as ->.
  { rewrite app_assoc, rfind_app, Hsep. cbn [Z.leb Z.compare].
    apply rfind_suffix_sep. }
  pose proof (rfind_bounds "/" base).
  split; [done|]. split.
  - by rewrite !take_app_le by lia.
  - rewrite !length_app. cbn. lia.
Qed.

(** X6: different inputs never get the same output name. *)
Theorem matched_name_injective (p q : list ascii) :
  Resample.matched_name p = Resample.matched_name q → p = q.
Proof.
  intros Heq. apply (f_equal Resample.splitext) in Heq.
  rewrite !matched_name_splitext_eq in Heq.
  injection Heq as Hbase Hext. apply app_inv_tail in Hbase.
  destruct (splitext_parts p) as [<- _], (splitext_parts q) as [<- _].
  by rewrite Hbase, Hext.
Qed.

(** ** zonal_stats.py: what every band record satisfies *)

Lemma count_nonzero_le (nodata : option pixel) (data : list pixel) :
  count_nonzero (valid_mask nodata data) ≤ length data.
Proof. rewrite valid_count_filter. apply length_filter. Qed.

(** X7: in every record the loop body produces, [valid] and [invalid]
    lie between 0 and [count], and min, max, mean and std are null exactly
    when [valid] is 0. *)
Theorem record_invariants {geom} (np : numpy) (src : dataset geom)
    (name : string) (band geom_idx : nat) (g : geom) :
  ∃ rec log c v i,
    geom_step np src name band geom_idx g = (Ok rec, log)
    ∧ dict_get (name +:+ "_count") rec = Some (PInt c)
    ∧ dict_get (name +:+ "_valid") rec = Some (PInt v)
    ∧ dict_get (name +:+ "_invalid") rec = Some (PInt i)
    ∧ (0 ≤ v ≤ c)%Z ∧ (0 ≤ i ≤ c)%Z
    ∧ (dict_get (name +:+ "_min") rec = Some PNone ↔ v = 0%Z)
    ∧ (dict_get (name +:+ "_max") rec = Some PNone ↔ v = 0%Z)
    ∧ (dict_get (name +:+ "_mean") rec = Some PNone ↔ v = 0%Z)
    ∧ (dict_get (name +:+ "_std") rec = Some PNone ↔ v = 0%Z).
Proof.
  rewrite geom_step_eq. unfold geom_record, geom_log.
  destruct (mask_crop src g) as [e|out_image].
  - eexists (failed_record name), _, 0%Z, 0%Z, 0%Z. unfold failed_record.
    rewrite get_count, get_valid, get_invalid, get_min, get_max, get_mean,
      get_std.
    repeat split; done.
  - set (data := out_image (band - 1)).
    pose proof (count_nonzero_le (nodata src) data) as Hle.
    eexists _, _, (Z.of_nat (length data)),
      (Z.of_nat (count_nonzero (valid_mask (nodata src) data))),
      (Z.of_nat (length data)
       - Z.of_nat (count_nonzero (valid_mask (nodata src) data)))%Z.
    split; [done|]. unfold pixel_stats.
    destruct (count_nonzero (valid_mask (nodata src) data)) as [|k] eqn:Hk;
      cbn [Nat.eqb];
      rewrite get_count, get_valid, get_invalid, get_min, get_max, get_mean,
        get_std;
      repeat split; try done; try lia.
Qed.

Lemma eqb_nan (x : pixel) : SFeqb x S754_nan = false.
Proof. by destruct x. Qed.

(** X8: when the declared sentinel is NaN, no pixel is ever invalid:
    [data != nodata] holds for every value, NaN included, so [valid]
    equals [count], [invalid] is 0 and the statistics range over all
    pixels of the window. *)
Theorem nan_sentinel_marks_nothing (np : numpy) (name : string)
    (data : list pixel) :
  bool_index data (valid_mask (Some S754_nan) data) = data
  ∧ dict_get (name +:+ "_valid") (pixel_stats np name (Some S754_nan) data)
    = Some (PInt (Z.of_nat (length data)))
  ∧ dict_get (name +:+ "_invalid") (pixel_stats np name (Some S754_nan) data)
    = Some (PInt 0).
Proof.
  assert (filter (λ x, spec_invalid (Some S754_nan) x = false) data = data)
    as Hall.
  { induction data as [|x r IH]; [done|].
    rewrite filter_cons, decide_True by apply eqb_nan. by f_equal. }
  split; [by rewrite valid_data_filter|].
  destruct (pixel_stats_counts np name (Some S754_nan) data)
    as (_ & -> & ->).
  rewrite valid_count_filter, Hall. split; [done|]. do 2 f_equal. lia.
Qed.

Lemma valid_mask_cons (x : pixel) (l : list pixel) :
  valid_mask None (x :: l) = isfinite x :: valid_mask None l.
Proof. done. Qed.

Lemma rasterio_fill_cons (nodata : option pixel) (b : bool) (v : pixel)
    (r : list (bool * pixel)) :
  rasterio_fill nodata ((b, v) :: r)
  = (if b then v else fill_value nodata) :: rasterio_fill nodata r.
Proof. done. Qed.

Lemma fill_without_sentinel (w : list (bool * pixel)) :
  count_nonzero (valid_mask None (rasterio_fill None w))
  = count_nonzero (valid_mask None (inside_values w))
    + length (filter (λ p : bool * pixel, p.1 = false) w)
  ∧ length w
    = length (inside_values w)
      + length (filter (λ p : bool * pixel, p.1 = false) w).
Proof.
  induction w as [|[inside v] r [IH1 IH2]]; [done|].
  rewrite inside_values_cons, filter_cons, rasterio_fill_cons,
    valid_mask_cons.
  cbn [count_nonzero length fst]. destruct inside.
  - rewrite decide_False by done. rewrite valid_mask_cons.
    cbn [count_nonzero length]. lia.
  - rewrite decide_True by done. cbn [fill_value isfinite length]. lia.
Qed.

(** X9: for a raster without sentinel, the pixels of the window outside
    the geometry are set to 0 and pass the finiteness test: each of them
    is counted in [valid], and [invalid] only counts the non-finite pixels
    inside the geometry. *)
Theorem outside_pixels_valid_without_sentinel {geom} (np : numpy)
    (cnt : nat) (rasterize : geom → string + (nat → list (bool * pixel)))
    (name : string) (band geom_idx : nat) (g : geom)
    (window : nat → list (bool * pixel)) :
  rasterize g = inr window →
  let w := window (band - 1) in
  let outside := length (filter (λ p : bool * pixel, p.1 = false) w) in
  let valid_inside := count_nonzero (valid_mask None (inside_values w)) in
  ∃ rec,
    geom_step np (rasterio_dataset None cnt rasterize) name band geom_idx g
    = (Ok rec, [])
    ∧ dict_get (name +:+ "_count") rec = Some (PInt (Z.of_nat (length w)))
    ∧ dict_get (name +:+ "_valid") rec
      = Some (PInt (Z.of_nat (valid_inside + outside)))
    ∧ dict_get (name +:+ "_invalid") rec
      = Some (PInt (Z.of_nat (length (inside_values w) - valid_inside))).
Proof.
  intros Hwin w outside valid_inside.
  unfold geom_step. cbn [mask_crop rasterio_dataset nodata].
  rewrite Hwin. fold w. eexists. split; [done|].
  destruct (pixel_stats_counts np name None (rasterio_fill None w))
    as (-> & -> & ->).
  destruct (fill_without_sentinel w) as [Hvalid Hlen].
  pose proof (count_nonzero_le None (inside_values w)).
  fold outside valid_inside in Hvalid, Hlen.
  assert (length (rasterio_fill None w) = length w) as ->
    by (unfold rasterio_fill; apply length_fmap).
  rewrite Hvalid. split; [done|]. split; [done|].
  do 2 f_equal. lia.
Qed.

(** ** zonal_stats.py: the keys of the combined record *)

Lemma list_ascii_of_string_app (a b : string) :
  list_ascii_of_string (a +:+ b)
  = list_ascii_of_string a ++ list_ascii_of_string b.
Proof. induction a as [|c a IH]; [done|]. simpl. by f_equal. Qed.

Lemma list_ascii_of_string_inj (a b : string) :
  list_ascii_of_string a = list_ascii_of_string b → a = b.
Proof.
  intros H. apply (f_equal string_of_list_ascii) in H.
  by rewrite !string_of_list_ascii_of_string in H.
Qed.

Lemma reversed_key (l s : string) :
  reverse (list_ascii_of_string (l +:+ s))
  = reverse (list_ascii_of_string s) ++ reverse (list_ascii_of_string l).
Proof. by rewrite list_ascii_of_string_app, reverse_app. Qed.

(** A key determines its label and its metric: no suffix is the end of
    another one. *)
Lemma metric_key_inj (l1 l2 s1 s2 : string) :
  s1 ∈ metrics → s2 ∈ metrics →
  l1 +:+ s1 = l2 +:+ s2 → l1 = l2 ∧ s1 = s2.
Proof.
  intros H1 H2 Heq.
  apply (f_equal (λ s, reverse (list_ascii_of_string s))) in Heq.
  rewrite !reversed_key in Heq.
  remember (reverse (list_ascii_of_string l1)) as r1 eqn:Hr1.
  remember (reverse (list_ascii_of_string l2)) as r2 eqn:Hr2.
  assert (r1 = r2 → l1 = l2) as Hlabel.
  { intros Hr. subst r1 r2.
    by apply list_ascii_of_string_inj, (inj reverse). }
  clear Hr1 Hr2. unfold metrics in H1, H2.
  repeat (apply elem_of_cons in H1 as [->|H1]);
    try (by apply elem_of_nil in H1);
    repeat (apply elem_of_cons in H2 as [->|H2]);
    try (by apply elem_of_nil in H2);
    vm_compute in Heq; simplify_eq; auto.
Qed.

Lemma date_is_no_metric_key (l s : string) :
  s ∈ metrics → l +:+ s ≠ "date".
Proof.
  intros H Heq.
  apply (f_equal (λ s, reverse (list_ascii_of_string s))) in Heq.
  rewrite reversed_key in Heq.
  generalize dependent (reverse (list_ascii_of_string l)). intros r Heq.
  unfold metrics in H.
  repeat (apply elem_of_cons in H as [->|H]);
    try (by apply elem_of_nil in H);
    vm_compute in Heq; simplify_eq.
Qed.

Lemma stats_dict_keys (n : string) (mn mx mean sd : pyval) (c v i : Z) :
  (stats_dict n mn mx mean sd c v i).*1 = (λ s, n +:+ s) <$> metrics.
Proof. done. Qed.

Lemma geom_record_keys {geom} (np : numpy) (src : dataset geom)
    (name : string) (band : nat) (g : geom) :
  (geom_record np src name band g).*1 = (λ s, name +:+ s) <$> metrics.
Proof.
  unfold geom_record. destruct (mask_crop src g); [done|].
  unfold pixel_stats. by destruct (_ =? _)%nat.
Qed.

Lemma metrics_nodup : NoDup metrics.
Proof. compute_done. Qed.

Lemma geom_record_nodup {geom} (np : numpy) (src : dataset geom)
    (name : string) (band : nat) (g : geom) :
  NoDup (geom_record np src name band g).*1.
Proof.
  rewrite geom_record_keys.
  apply (NoDup_fmap_2 _), metrics_nodup.
Qed.

(** *** Dictionaries, continued *)

Lemma dict_get_None (k : string) (d : dict) :
  k ∉ d.*1 → dict_get k d = None.
Proof.
  induction d as [|[k' v] r IH]; [done|]. csimpl.
  intros [Hne Hr]%not_elem_of_cons. by rewrite decide_False, IH.
Qed.

Lemma dict_get_None_inv (k : string) (d : dict) :
  dict_get k d = None → k ∉ d.*1.
Proof.
  induction d as [|[k' v] r IH]; [intros _; apply not_elem_of_nil|].
  csimpl. case_decide as Hk; [done|].
  intros Hr. apply not_elem_of_cons. split; [congruence|auto].
Qed.

Lemma dict_get_Some_key (k : string) (d : dict) (v : pyval) :
  dict_get k d = Some v → k ∈ d.*1.
Proof.
  induction d as [|[k' v'] r IH]; [done|]. csimpl.
  case_decide as Hk; [subst; left|right; auto].
Qed.

Lemma dict_set_fresh (k : string) (v : pyval) (d : dict) :
  k ∉ d.*1 → dict_set k v d = d ++ [(k, v)].
Proof.
  induction d as [|[k' v'] r IH]; [done|]. csimpl.
  intros [Hne Hr]%not_elem_of_cons.
  by rewrite decide_False, IH.
Qed.

Lemma dict_set_keys (k : string) (v : pyval) (d : dict) :
  (dict_set k v d).*1 = if decide (k ∈ d.*1) then d.*1 else d.*1 ++ [k].
Proof.
  induction d as [|[k' v'] r IH].
  - rewrite decide_False; [done|]. apply not_elem_of_nil.
  - cbn [dict_set]. rewrite !fmap_cons. cbn [fst].
    destruct (decide (k' = k)) as [->|Hne].
    + rewrite decide_True; [done|]. by left.
    + rewrite fmap_cons, IH. cbn [fst].
      destruct (decide (k ∈ r.*1)) as [Hin|Hnin].
      * rewrite decide_True; [done|]. by right.
      * rewrite decide_False; [done|].
        intros [?|?]%elem_of_cons; congruence.
Qed.

Lemma dict_update_disjoint (e d : dict) :
  NoDup e.*1 → (∀ k, k ∈ d.*1 → k ∉ e.*1) → dict_update d e = d ++ e.
Proof.
  unfold dict_update. revert d.
  induction e as [|[k v] r IH]; intros d Hnd Hdis; csimpl.
  - by rewrite app_nil_r.
  - apply NoDup_cons in Hnd as [Hk Hnd].
    rewrite dict_set_fresh.
    + rewrite IH, <- app_assoc; [done|done|].
      intros k' Hin Hr. rewrite fmap_app in Hin.
      apply elem_of_app in Hin as [Hin|Hin].
      * apply (Hdis k' Hin). by right.
      * apply list_elem_of_singleton in Hin. by subst.
    + intros Hin. apply (Hdis k Hin). by left.
Qed.

Lemma foldl_update_concat (recs : list dict) :
  ∀ acc, NoDup (acc ++ concat recs).*1 →
    foldl (λ a r, dict_update a r) acc recs = acc ++ concat recs.
Proof.
  induction recs as [|r rs IH]; intros acc Hnd; csimpl.
  - by rewrite app_nil_r.
  - csimpl in Hnd. rewrite app_assoc in Hnd.
    rewrite dict_update_disjoint.
    + by rewrite IH, <- app_assoc.
    + rewrite fmap_app in Hnd. apply NoDup_app in Hnd as (Hnd & _ & _).
      rewrite fmap_app in Hnd. by apply NoDup_app in Hnd as (_ & _ & ?).
    + rewrite fmap_app in Hnd. apply NoDup_app in Hnd as (Hnd & _ & _).
      rewrite fmap_app in Hnd. by apply NoDup_app in Hnd as (_ & ? & _).
Qed.

Lemma merged_at {geom} (np : numpy) (src : dataset geom)
    (shapes : list geom) (band_names : option (list string))
    (bands : list (nat * nat)) (j : nat) (g : geom) :
  shapes !! j = Some g →
  merged (band_records np src shapes band_names <$> bands) j
  = foldl (λ a r, dict_update a r) []
      ((λ p : nat * nat,
          geom_record np src (band_label band_names p.1 p.2) p.2 g)
       <$> bands).
Proof.
  intros Hg. unfold merged.
  assert (∀ acc,
            foldl (λ acc (bs : list dict),
                     dict_update acc (default [] (bs !! j))) acc
              (band_records np src shapes band_names <$> bands)
            = foldl (λ a r, dict_update a r) acc
                ((λ p : nat * nat,
                    geom_record np src (band_label band_names p.1 p.2) p.2 g)
                 <$> bands)) as Hfold; [|apply Hfold].
  induction bands as [|p r IH]; intros acc; csimpl; [done|].
  rewrite IH. do 2 f_equal.
  unfold band_records. by rewrite list_lookup_fmap, Hg.
Qed.

(** The combined record of each geometry, as a fold over the bands. *)
Lemma compute_statistics_per_geometry {geom} (np : numpy) (path : string)
    (src : dataset geom) (shapes : list geom)
    (band_names : option (list string)) :
  ∃ log,
    compute_statistics np path src shapes band_names
    = (Ok ((λ g, foldl (λ a r, dict_update a r) []
                   (geom_band_records np src band_names g)) <$> shapes),
       log).
Proof.
  rewrite compute_statistics_eq. eexists. f_equal. f_equal.
  apply list_eq. intros j. rewrite !list_lookup_fmap.
  destruct (shapes !! j) as [g|] eqn:Hg; csimpl.
  - rewrite lookup_seq_lt by (by apply lookup_lt_Some in Hg). csimpl.
    f_equal. by apply merged_at.
  - by rewrite lookup_seq_ge by (by apply lookup_ge_None in Hg).
Qed.

Lemma dict_update_keys (k : string) (e d : dict) :
  k ∈ (dict_update d e).*1 → k ∈ d.*1 ∨ k ∈ e.*1.
Proof.
  unfold dict_update. revert d.
  induction e as [|[k' v] r IH]; intros d; csimpl; [by left|].
  intros [Hin|Hin]%IH; [|right; by right].
  rewrite dict_set_keys in Hin. case_decide; [by left|].
  apply elem_of_app in Hin as [?|Hk%list_elem_of_singleton]; [by left|].
  subst k. right. by left.
Qed.

Lemma dict_update_nodup (e d : dict) :
  NoDup d.*1 → NoDup (dict_update d e).*1.
Proof.
  unfold dict_update. revert d.
  induction e as [|[k v] r IH]; intros d Hnd; csimpl; [done|].
  apply IH. rewrite dict_set_keys. case_decide as Hk; [done|].
  apply NoDup_app. split; [done|]. split; [|apply NoDup_singleton].
  intros k' Hin Hk'%list_elem_of_singleton. by subst k'.
Qed.

Lemma foldl_update_nodup (recs : list dict) (acc : dict) :
  NoDup acc.*1 → NoDup (foldl (λ a r, dict_update a r) acc recs).*1.
Proof.
  revert acc. induction recs as [|r rs IH]; intros acc Hnd; csimpl; [done|].
  by apply IH, dict_update_nodup.
Qed.

Lemma foldl_update_keys (k : string) (recs : list dict) (acc : dict) :
  k ∈ (foldl (λ a r, dict_update a r) acc recs).*1 →
  k ∈ acc.*1 ∨ ∃ r, r ∈ recs ∧ k ∈ r.*1.
Proof.
  revert acc. induction recs as [|r rs IH]; intros acc; csimpl; [by left|].
  intros [Hin|(r' & Hr' & Hin)]%IH.
  - apply dict_update_keys in Hin as [?|?]; [by left|].
    right. exists r. split; [by left|done].
  - right. exists r'. split; [by right|done].
Qed.

Lemma foldl_update_get_last (k : string) (v : pyval)
    (pre post : list dict) (r acc : dict) :
  NoDup r.*1 → Forall (λ r', NoDup r'.*1) post →
  (∀ r', r' ∈ post → dict_get k r' = None) →
  dict_get k r = Some v →
  dict_get k (foldl (λ a r, dict_update a r) acc (pre ++ r :: post)) = Some v.
Proof.
  intros Hr Hpost Hnone Hv. rewrite foldl_app. cbn [foldl].
  assert (dict_get k (dict_update (foldl (λ a r, dict_update a r) acc pre) r)
          = Some v) as Hhere by (by rewrite dict_get_update, Hv).
  revert Hhere. generalize (dict_update (foldl (λ a r, dict_update a r) acc pre) r).
  induction post as [|r' rs IH]; intros a Ha; cbn [foldl]; [done|].
  apply Forall_cons in Hpost as [Hr' Hrs].
  apply IH; [done|intros; apply Hnone; by right|].
  rewrite dict_get_update by done.
  rewrite (Hnone r') by (by left). done.
Qed.

Lemma elem_of_concat_fmap_inv {A B} (f : A → list B) (l : list A) (x : B) :
  x ∈ concat (f <$> l) → ∃ a, a ∈ l ∧ x ∈ f a.
Proof.
  induction l as [|a r IH]; csimpl; [by intros ?%elem_of_nil|].
  intros [Hx|Hx]%elem_of_app.
  - exists a. split; [by left|done].
  - destruct (IH Hx) as (a' & Ha' & Hx'). exists a'. split; [by right|done].
Qed.

Lemma label_keys_nodup (labels : list string) :
  NoDup labels →
  NoDup (concat ((λ n, (λ s, n +:+ s) <$> metrics) <$> labels)).
Proof.
  induction 1 as [|n labels Hn Hnd IH]; [apply NoDup_nil_2|].
  rewrite fmap_cons. cbn [concat].
  apply NoDup_app. split; [apply (NoDup_fmap_2 _), metrics_nodup|].
  split; [|done].
  intros k (s & -> & Hs)%list_elem_of_fmap Hin.
  apply elem_of_concat_fmap_inv in Hin as (n' & Hn' & Hk).
  apply list_elem_of_fmap in Hk as (s' & Heq & Hs').
  apply metric_key_inj in Heq as [-> _]; done.
Qed.

Lemma band_records_keys {geom} (np : numpy) (src : dataset geom)
    (band_names : option (list string)) (g : geom) :
  (concat (geom_band_records np src band_names g)).*1
  = concat ((λ n, (λ s, n +:+ s) <$> metrics) <$> band_labels src band_names).
Proof.
  unfold geom_band_records, band_labels.
  induction (enumerate 0 (indexes src)) as [|p r IH]; [done|].
  rewrite !fmap_cons. cbn [concat].
  by rewrite fmap_app, geom_record_keys, IH.
Qed.

Lemma combined_concat {geom} (np : numpy) (path : string)
    (src : dataset geom) (shapes : list geom)
    (band_names : option (list string)) :
  NoDup (band_labels src band_names) →
  ∃ log,
    compute_statistics np path src shapes band_names
    = (Ok ((λ g, concat (geom_band_records np src band_names g)) <$> shapes),
       log).
Proof.
  intros Hnd.
  destruct (compute_statistics_per_geometry np path src shapes band_names)
    as [log ->].
  exists log. do 2 f_equal. apply list_fmap_ext. intros _ g _.
  rewrite foldl_update_concat; [done|].
  cbn [app]. rewrite band_records_keys. by apply label_keys_nodup.
Qed.

(** X10: when the labels of the bands are pairwise distinct,
    [compute_statistics] never raises and the record of each geometry is
    the concatenation, in band order, of the seven-field records of the
    bands for that geometry; records come in the order of the
    geometries. *)
Theorem combined_records_concatenate {geom} (np : numpy) (path : string)
    (src : dataset geom) (shapes : list geom)
    (band_names : option (list string)) :
  NoDup (band_labels src band_names) →
  ∃ log,
    compute_statistics np path src shapes band_names
    = (Ok ((λ g, concat (geom_band_records np src band_names g)) <$> shapes),
       log).
Proof. apply combined_concat. Qed.

(** X11: when several bands get the same label, the fields under that
    label are those of the last such band: for a band that no later band
    shares its label with, every field of its record is found unchanged in
    the combined record of each geometry. *)
Theorem last_band_with_a_label_wins {geom} (np : numpy) (path : string)
    (src : dataset geom) (shapes : list geom)
    (band_names : option (list string)) (i j : nat) (g : geom)
    (metric : string) :
  i < count src →
  shapes !! j = Some g →
  metric ∈ metrics →
  (∀ i', i < i' < count src →
     band_label band_names i' (S i') ≠ band_label band_names i (S i)) →
  let name := band_label band_names i (S i) in
  ∃ stats log stat,
    compute_statistics np path src shapes band_names = (Ok stats, log)
    ∧ stats !! j = Some stat
    ∧ is_Some (dict_get (name +:+ metric) stat)
    ∧ dict_get (name +:+ metric) stat
      = dict_get (name +:+ metric) (geom_record np src name (S i) g).
Proof.
  intros Hi Hg Hmetric Hlast name.
  destruct (compute_statistics_per_geometry np path src shapes band_names)
    as [log ->].
  eexists _, log, _. split; [done|].
  rewrite list_lookup_fmap, Hg. split; [done|].
  assert (name +:+ metric ∈ (geom_record np src name (S i) g).*1) as Hkey.
  { rewrite geom_record_keys. apply list_elem_of_fmap. by exists metric. }
  destruct (dict_get (name +:+ metric) (geom_record np src name (S i) g))
    as [v|] eqn:Hv;
    [|apply dict_get_None_inv in Hv; done].
  unfold geom_band_records.
  rewrite <- (take_drop_middle _ i _ (indexes_lookup src i Hi)).
  rewrite fmap_app, fmap_cons. cbn [fst snd]. fold name.
  rewrite (foldl_update_get_last _ v); [done|..|done].
  - apply geom_record_nodup.
  - apply Forall_fmap, Forall_forall. intros p _. apply geom_record_nodup.
  - intros r' (p & -> & Hp)%list_elem_of_fmap.
    apply list_elem_of_lookup in Hp as [m Hm].
    rewrite lookup_drop, enumerate_lookup in Hm.
    unfold indexes in Hm.
    destruct (decide (S i + m < count src)) as [Hlt|Hge];
      [|rewrite lookup_seq_ge in Hm by lia; done].
    rewrite lookup_seq_lt in Hm by done. injection Hm as <-. cbn [fst snd].
    apply dict_get_None. rewrite geom_record_keys.
    intros (s & Heq & Hs)%list_elem_of_fmap.
    apply metric_key_inj in Heq as [Heq _]; [|done..].
    apply (Hlast (S i + m)); [lia|]. done.
Qed.

(** X12: no band label can overwrite the date of a time-series entry: for
    every record [compute_statistics] returns, the entry built from it
    has the raster's key as its date and keeps every field of the
    record. *)
Theorem entry_date_is_the_key {geom} (np : numpy) (path : string)
    (src : dataset geom) (shapes : list geom)
    (band_names : option (list string)) :
  ∃ stats log,
    compute_statistics np path src shapes band_names = (Ok stats, log)
    ∧ ∀ j stat key, stats !! j = Some stat →
        ∃ fields,
          entry key stat = PDict fields
          ∧ dict_get "date" fields = Some (PStr key)
          ∧ ∀ k v, dict_get k stat = Some v → dict_get k fields = Some v.
Proof.
  destruct (compute_statistics_per_geometry np path src shapes band_names)
    as [log ->].
  eexists _, log. split; [done|].
  intros j stat key Hj. rewrite list_lookup_fmap in Hj.
  destruct (shapes !! j) as [g|]; [|done]. injection Hj as <-.
  set (stat := foldl _ _ _).
  assert (NoDup stat.*1) as Hnd by (apply foldl_update_nodup, NoDup_nil_2).
  assert (dict_get "date" stat = None) as Hdate.
  { apply dict_get_None. intros Hin.
    apply foldl_update_keys in Hin as [Hin|(r & Hr & Hin)];
      [by apply elem_of_nil in Hin|].
    apply list_elem_of_fmap in Hr as (p & -> & _).
    rewrite geom_record_keys in Hin.
    apply list_elem_of_fmap in Hin as (s & Heq & Hs).
    symmetry in Heq. by apply date_is_no_metric_key in Heq. }
  eexists. split; [done|]. split.
  - rewrite dict_get_update, Hdate by done. cbn. by rewrite decide_True.
  - intros k v Hk. by rewrite dict_get_update, Hk.
Qed.

(** The fallback labels [band_1], [band_2], ... are pairwise distinct. *)
Lemma default_labels_nodup {geom} (src : dataset geom) :
  NoDup (band_labels src None).
Proof.
  unfold band_labels. cbn [band_label].
  rewrite (enumerate_fmap_snd (λ b, "band_" +:+ pretty b)).
  apply NoDup_fmap_2; [|apply NoDup_seq].
  intros a b Heq. by apply (inj (String.append "band_")), (inj pretty) in Heq.
Qed.

(** X13: without band names the labels never collide: every combined
    record is the concatenation of the records [band_1_*], [band_2_*],
    ... of all bands, whatever the raster and the geometries. *)
Theorem default_labels_never_collide {geom} (np : numpy) (path : string)
    (src : dataset geom) (shapes : list geom) :
  ∃ log,
    compute_statistics np path src shapes None
    = (Ok ((λ g, concat (geom_band_records np src None g)) <$> shapes), log).
Proof. apply combined_concat, default_labels_nodup. Qed.

Lemma no_failure_no_log {geom} (src : dataset geom) (shapes : list geom)
    (k : nat) :
  (∀ g, g ∈ shapes → ∃ out_image, mask_crop src g = inr out_image) →
  concat ((λ q : nat * geom, geom_log src q.1 q.2) <$> enumerate k shapes)
  = [].
Proof.
  revert k. induction shapes as [|g gs IH]; intros k Hok; [done|].
  cbn [enumerate]. rewrite fmap_cons. cbn [concat fst snd].
  rewrite IH by (intros; apply Hok; by right).
  destruct (Hok g) as [img Himg]; [by left|].
  unfold geom_log. by rewrite Himg.
Qed.

(** X14: a run in which no mask raises emits no warning: its diagnostics
    are the line for the raster followed by one line per band. *)
Theorem clean_run_log {geom} (np : numpy) (path : string)
    (src : dataset geom) (shapes : list geom)
    (band_names : option (list string)) :
  (∀ g, g ∈ shapes → ∃ out_image, mask_crop src g = inr out_image) →
  ∃ stats,
    compute_statistics np path src shapes band_names
    = (Ok stats,
       (INFO, "Opening raster: " +:+ path)
       :: ((λ n, (INFO, "Processing " +:+ n +:+ " ...")) <$>
           band_labels src band_names)).
Proof.
  intros Hok. rewrite compute_statistics_eq. eexists. do 2 f_equal.
  unfold band_labels.
  induction (enumerate 0 (indexes src)) as [|p r IH]; [done|].
  rewrite !fmap_cons. cbn [concat]. rewrite IH. unfold band_log at 1.
  by rewrite no_failure_no_log.
Qed.

(** ** zonal_stats.py: how a run ends *)

(** X15: with a single raster [main] never looks at the file name nor at
    an existing [timeseries] column: it returns the records of
    [compute_statistics], one per feature, and does not raise. *)
Theorem single_raster_never_raises {geom} (np : numpy)
    (band_names : option (list string)) (gdf : geodataframe geom)
    (tiff : string) (src : dataset geom) :
  ∃ stats log,
    compute_statistics np tiff src (geometry gdf) band_names = (Ok stats, log)
    ∧ main np band_names gdf [(tiff, src)] = (Ok (Statistics stats), log ++ [])
    ∧ length stats = length (geometry gdf).
Proof.
  unfold main. rewrite compute_statistics_eq, bind_ok.
  eexists _, _. split; [done|]. split; [done|].
  by rewrite length_fmap, length_seq.
Qed.

Lemma for_each_app {A S} (body : S → A → run S) (l1 l2 : list A) :
  ∀ (s s' : S) (log1 : list log_record),
    for_each body s l1 = (Ok s', log1) →
    for_each body s (l1 ++ l2)
    = ((for_each body s' l2).1, log1 ++ (for_each body s' l2).2).
Proof.
  induction l1 as [|x r IH]; intros s s' log1 Hrun; cbn [app for_each] in *.
  - injection Hrun as <- <-. by destruct (for_each body s l2).
  - destruct (body s x) as [[s1|e] lg]; [|done].
    rewrite bind_ok in *.
    destruct (for_each body s1 r) as [[s2|e] lg'] eqn:Hr; [|done].
    cbn [fst snd] in Hrun. injection Hrun as <- <-.
    rewrite (IH s1 s2 lg' Hr). cbn [fst snd]. by rewrite app_assoc.
Qed.

Lemma enumerate_app {A} (l1 l2 : list A) (k : nat) :
  enumerate k (l1 ++ l2)
  = enumerate k l1 ++ enumerate (k + length l1) l2.
Proof.
  revert k. induction l1 as [|x r IH]; intros k; cbn [app enumerate length].
  - by rewrite Nat.add_0_r.
  - rewrite IH. do 3 f_equal. lia.
Qed.

Lemma init_timeseries_total {geom} (gdf : geodataframe geom) :
  normalizes gdf →
  ∃ ts0,
    init_timeseries gdf = (Ok ts0, [])
    ∧ length ts0 = length (geometry gdf).
Proof.
  unfold normalizes, init_timeseries.
  destruct (timeseries gdf) as [col|].
  - intros (Hlen & Hok).
    exists ((λ v, match convert_ts v with Ok l => l | Raise _ => [] end)
              <$> col).
    rewrite (for_each_mem _
               (λ acc v, acc ++ [match convert_ts v with
                                 | Ok l => l
                                 | Raise _ => []
                                 end])
               (λ _, [])).
    + by rewrite foldl_snoc, concat_nil_fmap, length_fmap.
    + intros acc w Hw. rewrite Forall_forall in Hok.
      destruct (Hok w Hw) as [l ->]. unfold lift. by rewrite bind_ok.
  - intros _. eexists. split; [done|]. by rewrite length_replicate.
Qed.

Lemma main_multi {geom} (np : numpy) (band_names : option (list string))
    (gdf : geodataframe geom) (tiffs : list (string * dataset geom)) :
  length tiffs ≠ 1 →
  main np band_names gdf tiffs
  = (ts0 ← init_timeseries gdf;
     ts ← for_each
            (process_tiff np band_names (geometry gdf) (length tiffs))
            ts0 (enumerate 1 tiffs);
     mret (Timeseries ts)).
Proof. intros Hmulti. unfold main. by destruct tiffs as [|[t s] [|t2 r]]. Qed.

Lemma process_tiff_bad_date {geom} (np : numpy)
    (band_names : option (list string)) (shapes : list geom)
    (n_tiffs tiff_idx : nat) (ts : list (list pyval)) (tiff : string)
    (src : dataset geom) (e : exn) :
  DateKey.date_key tiff = Raise e →
  process_tiff np band_names shapes n_tiffs ts (tiff_idx, (tiff, src))
  = (Raise e,
     [(INFO, "[" +:+ pretty tiff_idx +:+ "/" +:+ pretty n_tiffs
             +:+ "] Processing TIFF: " +:+ tiff)]).
Proof.
  intros Hbad. unfold process_tiff, emit, lift. cbn [fst snd].
  rewrite bind_ok. cbn [fst snd]. by rewrite Hbad.
Qed.

(** X16: with several rasters, the run ends at the first raster whose
    temporal key raises: [main] returns that exception and no time
    series, the last diagnostic is the line announcing that raster, and
    the rasters after it are not processed. *)
Theorem run_stops_at_first_bad_date {geom} (np : numpy)
    (band_names : option (list string)) (gdf : geodataframe geom)
    (pre post : list (string * dataset geom)) (keys : list string)
    (tiff : string) (src : dataset geom) (e : exn) :
  normalizes gdf →
  Forall2 (λ t k, DateKey.date_key t.1 = Ok k) pre keys →
  DateKey.date_key tiff = Raise e →
  length (pre ++ (tiff, src) :: post) ≠ 1 →
  ∃ log,
    main np band_names gdf (pre ++ (tiff, src) :: post)
    = (Raise e,
       log ++ [(INFO, "[" +:+ pretty (S (length pre)) +:+ "/"
                      +:+ pretty (length (pre ++ (tiff, src) :: post))
                      +:+ "] Processing TIFF: " +:+ tiff)]).
Proof.
  intros Hnorm Hkeys Hbad Hmulti.
  rewrite main_multi by done.
  destruct (init_timeseries_total gdf Hnorm) as (ts0 & -> & Hlen0).
  rewrite bind_ok. cbn [fst snd app].
  set (n := length (pre ++ (tiff, src) :: post)).
  destruct (process_loop np band_names (geometry gdf) n pre keys Hkeys 1 ts0
              Hlen0) as (ts & log & Hrun & _ & _).
  rewrite enumerate_app, (for_each_app _ _ _ _ _ _ Hrun).
  cbn [enumerate for_each].
  rewrite (process_tiff_bad_date _ _ _ _ _ _ _ _ e Hbad), !bind_raise.
  cbn [fst snd]. exists log. by rewrite bind_raise.
Qed.

Lemma convert_ts_raises_TypeError (v : pyval) (e : exn) :
  convert_ts v = Raise e → e = TypeError.
Proof.
  destruct v as [| | | | |items]; try done. cbn [convert_ts].
  induction items as [|[k x] r IH]; cbn [foldr fst snd]; [done|].
  destruct x; try (by intros [= <-]).
  destruct (foldr _ _ r); [done|]. intros [= <-]. by apply IH.
Qed.

Lemma convert_ts_bad_value (items : list (string * pyval)) (k : string)
    (x : pyval) :
  (k, x) ∈ items → (∀ fields, x ≠ PDict fields) →
  convert_ts (PDict items) = Raise TypeError.
Proof.
  intros Hin Hbad. cbn [convert_ts].
  induction items as [|[k' x'] r IH]; [by apply elem_of_nil in Hin|].
  cbn [foldr fst snd].
  apply elem_of_cons in Hin as [[= <- <-]|Hin].
  - destruct x; try done. by destruct (Hbad d).
  - rewrite (IH Hin). by destruct x'.
Qed.

Lemma normalisation_raises (col : list pyval)
    (items : list (string * pyval)) (k : string) (x : pyval)
    (acc : list (list pyval)) :
  PDict items ∈ col →
  (k, x) ∈ items →
  (∀ fields, x ≠ PDict fields) →
  for_each (λ acc value, l ← lift (convert_ts value); mret (acc ++ [l]))
    acc col
  = (Raise TypeError, []).
Proof.
  intros Hin Hk Hbad. revert acc.
  induction col as [|v r IH]; intros acc; [by apply elem_of_nil in Hin|].
  cbn [for_each]. unfold lift.
  destruct (convert_ts v) as [l|e] eqn:Hv.
  - rewrite bind_ok. cbn [fst snd mret run_mret run_ret]. rewrite bind_ok.
    apply elem_of_cons in Hin as [<-|Hin].
    + by rewrite (convert_ts_bad_value items k x Hk Hbad) in Hv.
    + by rewrite (IH Hin).
  - apply convert_ts_raises_TypeError in Hv as ->. done.
Qed.

(** X17: an existing [timeseries] value that is a mapping with a value
    that is not itself a mapping stops a multi-raster run before any
    raster is opened: [main] raises [TypeError] and has emitted
    nothing. *)
Theorem malformed_series_stops_the_run {geom} (np : numpy)
    (band_names : option (list string)) (gdf : geodataframe geom)
    (tiffs : list (string * dataset geom)) (col : list pyval)
    (items : list (string * pyval)) (k : string) (x : pyval) :
  length tiffs ≠ 1 →
  timeseries gdf = Some col →
  PDict items ∈ col →
  (k, x) ∈ items →
  (∀ fields, x ≠ PDict fields) →
  main np band_names gdf tiffs = (Raise TypeError, []).
Proof.
  intros Hmulti Hcol Hin Hk Hbad.
  rewrite main_multi by done.
  unfold init_timeseries. rewrite Hcol.
  by rewrite (normalisation_raises col items k x [] Hin Hk Hbad).
Qed.

(** ** zonal_stats.py: the date pattern *)

Lemma append_cons (x : ascii) (a b : string) :
  String x a +:+ b = String x (a +:+ b).
Proof. done. Qed.

Lemma append_nil_l (b : string) : "" +:+ b = b.
Proof. done. Qed.

Lemma append_assoc_r (a b c : string) : (a +:+ b) +:+ c = a +:+ (b +:+ c).
Proof.
  induction a as [|x a IH]; [done|]. rewrite !append_cons. by f_equal.
Qed.

Lemma append_nil_r (a : string) : a +:+ "" = a.
Proof. induction a as [|x a IH]; [done|]. rewrite append_cons. by f_equal. Qed.

Lemma append_length (a b : string) :
  String.length (a +:+ b) = String.length a + String.length b.
Proof.
  induction a as [|x a IH]; [done|]. rewrite append_cons. simpl. by f_equal.
Qed.

Lemma digit_not_sep (c : ascii) :
  DateKey.is_digit c = true → DateKey.is_sep c = false.
Proof.
  destruct c as [[] [] [] [] [] [] [] []]; intros H; vm_compute in H;
    try discriminate H; reflexivity.
Qed.

Lemma digits_inv (n : nat) (k : string → option string) :
  ∀ s m, DateKey.digits n k s = Some m →
    ∃ ds rest m',
      s = ds +:+ rest ∧ String.length ds = n ∧ all_digits ds
      ∧ k rest = Some m' ∧ m = ds +:+ m'.
Proof.
  induction n as [|n IH]; intros s m Hm; cbn [DateKey.digits] in Hm.
  - by exists "", s, m.
  - destruct s as [|c r]; [done|].
    destruct (DateKey.is_digit c) eqn:Hc; [|done].
    destruct (DateKey.digits n k r) as [m1|] eqn:Hr; [|done].
    injection Hm as <-.
    destruct (IH r m1 Hr) as (ds & rest & m' & -> & Hlen & Hds & Hk & ->).
    exists (String c ds), rest, m'. repeat split; try done.
    + simpl. by f_equal.
    + unfold all_digits in *. simpl. by rewrite Hc.
Qed.

Lemma opt_sep_inv (k : string → option string) (s m : string) :
  DateKey.opt_sep k s = Some m →
  ∃ sp rest m',
    s = sp +:+ rest
    ∧ (sp = "" ∨ ∃ c, sp = String c "" ∧ DateKey.is_sep c = true)
    ∧ k rest = Some m' ∧ m = sp +:+ m'.
Proof.
  unfold DateKey.opt_sep. destruct s as [|c r].
  - intros Hk. exists "", "", m. repeat split; by auto.
  - destruct (DateKey.is_sep c) eqn:Hc.
    + destruct (k r) as [m1|] eqn:Hr.
      * intros [= <-]. exists (String c ""), r, m1.
        repeat split; try done. right. by exists c.
      * intros Hk. exists "", (String c r), m. repeat split; by auto.
    + intros Hk. exists "", (String c r), m. repeat split; by auto.
Qed.

Lemma strip_seps_app (a b : string) :
  DateKey.strip_seps (a +:+ b)
  = DateKey.strip_seps a +:+ DateKey.strip_seps b.
Proof.
  induction a as [|c a IH]; [done|]. rewrite append_cons. simpl.
  destruct (DateKey.is_sep c); [done|]. rewrite append_cons. by f_equal.
Qed.

Lemma strip_seps_digits (a : string) :
  all_digits a → DateKey.strip_seps a = a.
Proof.
  unfold all_digits. induction a as [|c a IH]; simpl; [done|].
  intros [Hc Ha]%andb_true_iff. rewrite (digit_not_sep c Hc). by f_equal; auto.
Qed.

Lemma all_digits_app (a b : string) :
  all_digits a → all_digits b → all_digits (a +:+ b).
Proof.
  unfold all_digits. rewrite list_ascii_of_string_app, forallb_app.
  by intros -> ->.
Qed.

(** The shape of a match of the pattern at the start of [s]. *)
Lemma match_here_inv (s m : string) :
  DateKey.match_here s = Some m →
  ∃ y s1 mo s2 d rest,
    s = m +:+ rest
    ∧ m = y +:+ s1 +:+ mo +:+ s2 +:+ d
    ∧ String.length y = 4 ∧ String.length mo = 2 ∧ String.length d = 2
    ∧ all_digits y ∧ all_digits mo ∧ all_digits d
    ∧ String.length s1 ≤ 1 ∧ String.length s2 ≤ 1
    ∧ DateKey.strip_seps m = y +:+ mo +:+ d.
Proof.
  unfold DateKey.match_here. intros H.
  apply digits_inv in H as (y & r1 & m1 & -> & Hy & Hdy & H & ->).
  apply opt_sep_inv in H as (s1 & r2 & m2 & -> & Hs1 & H & ->).
  apply digits_inv in H as (mo & r3 & m3 & -> & Hmo & Hdmo & H & ->).
  apply opt_sep_inv in H as (s2 & r4 & m4 & -> & Hs2 & H & ->).
  apply digits_inv in H as (d & rest & m5 & -> & Hd & Hdd & H & ->).
  injection H as <-.
  exists y, s1, mo, s2, d, rest. rewrite !append_nil_r.
  split; [by rewrite !append_assoc_r|]. split; [done|].
  repeat (split; [done|]).
  assert (∀ sp, (sp = "" ∨ ∃ c, sp = String c "" ∧ DateKey.is_sep c = true) →
            String.length sp ≤ 1 ∧ DateKey.strip_seps sp = "") as Hsep.
  { intros sp [->|(c & -> & Hc)]; simpl; [by auto|]. rewrite Hc. by auto. }
  destruct (Hsep s1 Hs1) as [Hl1 Hst1], (Hsep s2 Hs2) as [Hl2 Hst2].
  split; [done|]. split; [done|].
  rewrite !strip_seps_app, Hst1, Hst2, !strip_seps_digits by done.
  done.
Qed.

(** X18: in an ASCII file name, whatever [re.search] finds is a piece of
    the name, the leftmost one that matches the pattern, of 8 to 10
    characters; once the separators are removed exactly eight digits are
    left, so that [strptime] only ever fails on the value of the date. *)
Theorem re_search_sound (s m : string) :
  ascii_only s →
  DateKey.re_search s = Some m →
  ∃ pre post,
    s = pre +:+ m +:+ post
    ∧ DateKey.match_here (m +:+ post) = Some m
    ∧ (∀ a b, pre = a +:+ b → b ≠ "" →
         DateKey.match_here (b +:+ m +:+ post) = None)
    ∧ 8 ≤ String.length m ≤ 10
    ∧ String.length (DateKey.strip_seps m) = 8
    ∧ all_digits (DateKey.strip_seps m).
Proof.
  intros _.
  revert m. induction s as [|c r IH]; intros m; cbn [DateKey.re_search].
  - intros H. vm_compute in H. done.
  - destruct (DateKey.match_here (String c r)) as [m'|] eqn:Hm.
    + intros [= <-].
      pose proof Hm as Hshape.
      apply match_here_inv in Hshape
        as (y & s1 & mo & s2 & d & rest & Hs & -> & Hy & Hmo & Hd & Hdy & Hdmo
            & Hdd & Hl1 & Hl2 & Hstrip).
      exists "", rest. rewrite append_nil_l.
      split; [done|]. split; [by rewrite <- Hs|]. split.
      { intros a b Hab Hb. destruct a; [by rewrite append_nil_l in Hab|].
        by rewrite append_cons in Hab. }
      rewrite Hstrip, !append_length, Hy, Hmo, Hd.
      split; [lia|]. split; [done|]. by repeat apply all_digits_app.
    + intros Hr. destruct (IH m Hr) as (pre & post & -> & Hhere & Hleft & Hrest).
      exists (String c pre), post. split; [done|]. split; [done|].
      split; [|done].
      intros [|c' a] b Hab Hb.
      * rewrite append_nil_l in Hab. subst b. by rewrite append_cons.
      * rewrite append_cons in Hab. injection Hab as <- ->.
        by apply (Hleft a b).
Qed.

Lemma digits_fwd (k : string → option string) (rest m' : string) :
  ∀ (n : nat) (ds : string),
    all_digits ds → String.length ds = n → k rest = Some m' →
    DateKey.digits n k (ds +:+ rest) = Some (ds +:+ m').
Proof.
  intros n ds. revert n. unfold all_digits.
  induction ds as [|c ds IH]; intros [|n] Hd Hlen Hk; try done.
  rewrite !append_cons. cbn [DateKey.digits].
  simpl in Hd. apply andb_true_iff in Hd as [-> Hd].
  rewrite (IH n); [done|done| |done]. simpl in Hlen. lia.
Qed.

Lemma opt_sep_fwd (k : string → option string) (sp rest m' : string) :
  optional_sep sp →
  (∃ c r, rest = String c r ∧ DateKey.is_sep c = false) →
  k rest = Some m' →
  DateKey.opt_sep k (sp +:+ rest) = Some (sp +:+ m').
Proof.
  intros [->|(c & -> & Hc)] (c' & r & -> & Hc') Hk.
  - rewrite !append_nil_l. unfold DateKey.opt_sep. by rewrite Hc'.
  - rewrite !append_cons, !append_nil_l. unfold DateKey.opt_sep.
    by rewrite Hc, Hk.
Qed.

Lemma starts_with_digit (ds rest : string) (n : nat) :
  all_digits ds → String.length ds = S n →
  ∃ c r, ds +:+ rest = String c r ∧ DateKey.is_sep c = false.
Proof.
  unfold all_digits. destruct ds as [|c ds]; [done|].
  simpl. intros [Hc _]%andb_true_iff _.
  exists c, (ds +:+ rest). split; [done|]. by apply digit_not_sep.
Qed.

Lemma match_here_spelled (y s1 mo s2 d post : string) :
  String.length y = 4 → String.length mo = 2 → String.length d = 2 →
  all_digits y → all_digits mo → all_digits d →
  optional_sep s1 → optional_sep s2 →
  DateKey.match_here (y +:+ s1 +:+ mo +:+ s2 +:+ d +:+ post)
  = Some (y +:+ s1 +:+ mo +:+ s2 +:+ d).
Proof.
  intros Hy Hmo Hd Hdy Hdmo Hdd Hs1 Hs2. unfold DateKey.match_here.
  rewrite <- (append_nil_r d) at 2.
  apply digits_fwd; [done..|].
  apply opt_sep_fwd; [done|by apply (starts_with_digit _ _ 1)|].
  apply digits_fwd; [done..|].
  apply opt_sep_fwd; [done|by apply (starts_with_digit _ _ 1)|].
  by apply digits_fwd.
Qed.

Lemma re_search_skip (pre rest : string) :
  no_digit pre → DateKey.re_search (pre +:+ rest) = DateKey.re_search rest.
Proof.
  unfold no_digit. induction pre as [|c pre IH]; [done|].
  cbn [list_ascii_of_string forallb]. intros [Hc Hpre]%andb_true_iff.
  rewrite append_cons. cbn [DateKey.re_search].
  unfold DateKey.match_here at 1. cbn [DateKey.digits].
  apply negb_true_iff in Hc. rewrite Hc. by apply IH.
Qed.

Lemma re_search_here (s m : string) :
  DateKey.match_here s = Some m → DateKey.re_search s = Some m.
Proof. intros H. destruct s; cbn [DateKey.re_search]; by rewrite H. Qed.

Lemma is_digit_cases (c : ascii) :
  DateKey.is_digit c = true → In c (list_ascii_of_string "0123456789").
Proof.
  destruct c as [[] [] [] [] [] [] [] []]; intros H; vm_compute in H;
    try discriminate H; vm_compute; tauto.
Qed.

Lemma zero_pad_two (s : string) :
  all_digits s → String.length s = 2 → DateKey.zero_pad 2 (value s) = s.
Proof.
  destruct s as [|a [|b [|]]]; try done. unfold all_digits. simpl.
  intros [Ha [Hb _]%andb_true_iff]%andb_true_iff _.
  apply is_digit_cases in Ha, Hb.
  assert (forallb (λ a, forallb (λ b,
            bool_decide (DateKey.zero_pad 2 (value (String a (String b "")))
                         = String a (String b "")))
            (list_ascii_of_string "0123456789"))
            (list_ascii_of_string "0123456789") = true) as Hall
    by (vm_compute; reflexivity).
  rewrite forallb_forall in Hall. specialize (Hall a Ha).
  rewrite forallb_forall in Hall. specialize (Hall b Hb).
  by apply bool_decide_eq_true in Hall.
Qed.

(** Four digits that denote a number from 1000 on are its decimal
    rendering. *)
Lemma pretty_four (s : string) :
  all_digits s → String.length s = 4 → 1000 ≤ value s →
  pretty (value s) = s.
Proof.
  destruct s as [|a [|b [|c [|d [|]]]]]; try done. unfold all_digits. simpl.
  intros [Ha [Hb [Hc [Hd _]%andb_true_iff]%andb_true_iff]%andb_true_iff]
    %andb_true_iff _.
  apply is_digit_cases in Ha, Hb, Hc, Hd.
  assert (forallb (λ a, forallb (λ b, forallb (λ c, forallb (λ d,
            (value (String a (String b (String c (String d "")))) <? 1000)
            || bool_decide
                 (pretty (value (String a (String b (String c (String d "")))))
                  = String a (String b (String c (String d "")))))
            (list_ascii_of_string "0123456789"))
            (list_ascii_of_string "0123456789"))
            (list_ascii_of_string "0123456789"))
            (list_ascii_of_string "0123456789") = true) as Hall
    by (vm_compute; reflexivity).
  rewrite forallb_forall in Hall. specialize (Hall a Ha).
  rewrite forallb_forall in Hall. specialize (Hall b Hb).
  rewrite forallb_forall in Hall. specialize (Hall c Hc).
  rewrite forallb_forall in Hall. specialize (Hall d Hd).
  intros Hyear. apply orb_true_iff in Hall as [Hlt|Heq].
  - apply Nat.ltb_lt in Hlt. lia.
  - by apply bool_decide_eq_true in Heq.
Qed.

Lemma strptime_digits (y mo d : string) :
  String.length y = 4 → String.length mo = 2 → String.length d = 2 →
  all_digits y → all_digits mo → all_digits d →
  DateKey.strptime_Ymd (y +:+ mo +:+ d)
  = if (1 <=? value y) && (1 <=? value mo) && (value mo <=? 12)
       && (1 <=? value d)
       && (value d <=? DateKey.days_in_month (value y) (value mo))
    then Ok {| DateKey.year := value y; DateKey.month := value mo;
               DateKey.day := value d |}
    else Raise ValueError.
Proof.
  destruct y as [|y1 [|y2 [|y3 [|y4 [|]]]]]; try done.
  destruct mo as [|m1 [|m2 [|]]]; try done.
  destruct d as [|d1 [|d2 [|]]]; try done.
  intros _ _ _ Hy Hmo Hd. unfold all_digits in *.
  unfold DateKey.strptime_Ymd.
  rewrite !append_cons, !append_nil_l.
  cbn [list_ascii_of_string] in *.
  rewrite forallb_app with (l1 := [y1; y2; y3; y4]) (l2 := [m1; m2; d1; d2]).
  rewrite forallb_app with (l1 := [m1; m2]) (l2 := [d1; d2]).
  by rewrite Hy, Hmo, Hd.
Qed.

(** The key of a file name that spells a date after a prefix without
    digits. *)
Lemma date_key_spelled (tiff pre post y s1 mo s2 d : string) :
  DateKey.basename tiff = pre +:+ y +:+ s1 +:+ mo +:+ s2 +:+ d +:+ post →
  no_digit pre →
  String.length y = 4 → String.length mo = 2 → String.length d = 2 →
  all_digits y → all_digits mo → all_digits d →
  optional_sep s1 → optional_sep s2 →
  DateKey.date_key tiff
  = match DateKey.strptime_Ymd (y +:+ mo +:+ d) with
    | Ok dt => Ok (DateKey.strftime_Ymd dt)
    | Raise e => Raise e
    end.
Proof.
  intros Hname Hpre Hy Hmo Hd Hdy Hdmo Hdd Hs1 Hs2.
  unfold DateKey.date_key, DateKey.extract_date_from_filename.
  rewrite Hname, re_search_skip by done.
  rewrite (re_search_here _ _ (match_here_spelled y s1 mo s2 d post
                                 Hy Hmo Hd Hdy Hdmo Hdd Hs1 Hs2)).
  assert (∀ sp, optional_sep sp → DateKey.strip_seps sp = "") as Hsep.
  { intros sp [->|(c & -> & Hc)]; simpl; [done|]. by rewrite Hc. }
  rewrite !strip_seps_app, (Hsep s1), (Hsep s2), !strip_seps_digits,
    !append_nil_l by done.
  by destruct (DateKey.strptime_Ymd _).
Qed.

(** X19: every spelling of a calendar date gives the same key: for an
    ASCII file name whose first digits, after a prefix without digits,
    are four, two and two digits, each pair of groups separated by
    nothing, a hyphen or an underscore, and denoting a date of the years
    1000 to 9999, the key is that date as [YYYY-MM-DD]. *)
Theorem spelled_date_gives_iso_key (tiff pre post y s1 mo s2 d : string) :
  ascii_only (DateKey.basename tiff) →
  DateKey.basename tiff = pre +:+ y +:+ s1 +:+ mo +:+ s2 +:+ d +:+ post →
  no_digit pre →
  String.length y = 4 → String.length mo = 2 → String.length d = 2 →
  all_digits y → all_digits mo → all_digits d →
  optional_sep s1 → optional_sep s2 →
  1000 ≤ value y →
  1 ≤ value mo ≤ 12 →
  1 ≤ value d ≤ DateKey.days_in_month (value y) (value mo) →
  DateKey.date_key tiff = Ok (y +:+ "-" +:+ mo +:+ "-" +:+ d).
Proof.
  intros _ Hname Hpre Hy Hmo Hd Hdy Hdmo Hdd Hs1 Hs2 Hyear Hmonth Hday.
  rewrite (date_key_spelled tiff pre post y s1 mo s2 d) by done.
  rewrite strptime_digits by done.
  rewrite !(proj2 (Nat.leb_le _ _)) by lia. cbn [andb].
  unfold DateKey.strftime_Ymd. cbn [DateKey.year DateKey.month DateKey.day].
  by rewrite pretty_four, !zero_pad_two.
Qed.

(** X20: the same ASCII file names raise [ValueError] exactly when the
    digits are no calendar date: year 0000, a month outside 1..12, or a
    day outside the month. *)
Theorem spelled_date_raises_iff_impossible
    (tiff pre post y s1 mo s2 d : string) :
  ascii_only (DateKey.basename tiff) →
  DateKey.basename tiff = pre +:+ y +:+ s1 +:+ mo +:+ s2 +:+ d +:+ post →
  no_digit pre →
  String.length y = 4 → String.length mo = 2 → String.length d = 2 →
  all_digits y → all_digits mo → all_digits d →
  optional_sep s1 → optional_sep s2 →
  (DateKey.date_key tiff = Raise ValueError
   ↔ ¬ (1 ≤ value y ∧ 1 ≤ value mo ≤ 12
        ∧ 1 ≤ value d ≤ DateKey.days_in_month (value y) (value mo))).
Proof.
  intros _ Hname Hpre Hy Hmo Hd Hdy Hdmo Hdd Hs1 Hs2.
  rewrite (date_key_spelled tiff pre post y s1 mo s2 d) by done.
  rewrite strptime_digits by done.
  destruct (_ && _) eqn:Hvalid.
  - split; [done|]. intros Hno. exfalso. apply Hno.
    repeat (apply andb_true_iff in Hvalid as [Hvalid ?]).
    repeat match goal with H : (_ <=? _) = true |- _ =>
      apply Nat.leb_le in H end.
    lia.
  - split; [|done]. intros _ (Hyr & Hmonth & Hday).
    rewrite !(proj2 (Nat.leb_le _ _)) in Hvalid by lia. done.
Qed.

(** ** zonal_stats.py: the time series of a run that ends normally *)

(** The entry built from a record of [compute_statistics] is the date
    followed by the fields of the record. *)
Lemma entry_of_record {geom} (np : numpy) (path : string)
    (src : dataset geom) (shapes : list geom)
    (band_names : option (list string)) (stats : list dict)
    (log : list log_record) (j : nat) (stat : dict) (key : string) :
  compute_statistics np path src shapes band_names = (Ok stats, log) →
  stats !! j = Some stat →
  entry key stat = PDict (("date", PStr key) :: stat).
Proof.
  destruct (compute_statistics_per_geometry np path src shapes band_names)
    as [log' ->].
  intros [= <- _] Hj. rewrite list_lookup_fmap in Hj.
  destruct (shapes !! j) as [g|]; [|done]. injection Hj as <-.
  set (stat := foldl _ _ _).
  unfold entry. rewrite dict_update_disjoint; [done| |].
  - apply foldl_update_nodup, NoDup_nil_2.
  - intros k Hk Hin. apply list_elem_of_singleton in Hk. subst k.
    apply foldl_update_keys in Hin as [Hin|(r & Hr & Hin)];
      [by apply elem_of_nil in Hin|].
    apply list_elem_of_fmap in Hr as (p & -> & _).
    rewrite geom_record_keys in Hin.
    apply list_elem_of_fmap in Hin as (s & Heq & Hs).
    symmetry in Heq. by apply date_is_no_metric_key in Heq.
Qed.

(** X21: a run over several rasters in which every raster's key is
    extracted and the existing column normalises ends normally, and every
    feature's series is the series it started with followed by one entry
    per raster, in the order of the rasters; the entry for a raster is
    the date, which is that raster's key, followed by the fields of the
    feature's record for that raster.  Nothing is merged or dropped by
    date. *)
Theorem timeseries_grow_by_append {geom} (np : numpy)
    (band_names : option (list string)) (gdf : geodataframe geom)
    (tiffs : list (string * dataset geom)) (keys : list string)
    (i : nat) (old : list pyval) :
  length tiffs ≠ 1 →
  Forall2 (λ t k, DateKey.date_key t.1 = Ok k) tiffs keys →
  starts_as gdf i old →
  ∃ ts log series,
    main np band_names gdf tiffs = (Ok (Timeseries ts), log)
    ∧ ts !! i = Some (old ++ series)
    ∧ length series = length tiffs
    ∧ ∀ j tiff src k,
        tiffs !! j = Some (tiff, src) → keys !! j = Some k →
        ∃ stats lg stat,
          compute_statistics np tiff src (geometry gdf) band_names
          = (Ok stats, lg)
          ∧ stats !! i = Some stat
          ∧ series !! j = Some (PDict (("date", PStr k) :: stat)).
Proof.
  intros Hmulti Hkeys Hstart.
  destruct (main_appends np band_names gdf tiffs keys i old Hmulti Hkeys Hstart)
    as (ts & log & series & Hrun & Hts & Hlen & Hseries).
  exists ts, log, series. split; [done|]. split; [done|]. split; [done|].
  intros j tiff src k Ht Hk.
  destruct (Hseries j tiff src k Ht Hk) as (stats & lg & stat & Hcs & Hi & Hj).
  exists stats, lg, stat. split; [done|]. split; [done|].
  by rewrite Hj, (entry_of_record _ _ _ _ _ _ _ _ _ k Hcs Hi).
Qed.

Lemma convert_ts_raise_inv (items : list (string * pyval)) (e : exn) :
  convert_ts (PDict items) = Raise e →
  ∃ k x, (k, x) ∈ items ∧ ∀ fields, x ≠ PDict fields.
Proof.
  cbn [convert_ts].
  induction items as [|[k x] r IH]; cbn [foldr fst snd]; [done|].
  destruct x as [| | | | |fields];
    try (intros _; eexists k, _; split; [by left|done]).
  destruct (foldr _ _ r) as [entries|e'] eqn:Hr; [done|].
  intros [= <-]. destruct (IH eq_refl) as (k' & x' & Hin & Hbad).
  exists k', x'. split; [by right|done].
Qed.

(** X22: what [convert_ts] does with each kind of value.  A mapping whose
    values are all records gives one entry per key, in the order of the
    keys; the entry keeps every field of its record and carries the key
    as its date unless the record has a date of its own.  A mapping
    raises [TypeError] exactly when one of its values is not a mapping.
    A sequence is returned as it is, so that normalising twice changes
    nothing.  A value that is neither gives the empty sequence. *)
Theorem convert_ts_normalizes (recs : list (string * dict))
    (items : list (string * pyval)) (l : list pyval) (v : pyval) :
  (∃ entries,
     convert_ts (mapping_of recs) = Ok entries
     ∧ length entries = length recs
     ∧ ∀ j k rec, recs !! j = Some (k, rec) → NoDup rec.*1 →
         ∃ fields,
           entries !! j = Some (PDict fields)
           ∧ (∀ f x, dict_get f rec = Some x → dict_get f fields = Some x)
           ∧ (dict_get "date" rec = None →
                dict_get "date" fields = Some (PStr k)))
  ∧ (convert_ts (PDict items) = Raise TypeError
     ↔ ∃ k x, (k, x) ∈ items ∧ ∀ fields, x ≠ PDict fields)
  ∧ convert_ts (PList l) = Ok l
  ∧ (∀ l', convert_ts v = Ok l' → convert_ts (PList l') = Ok l')
  ∧ match v with
    | PDict _ | PList _ => True
    | _ => convert_ts v = Ok []
    end.
Proof.
  split; [|split; [|split; [done|split; [apply convert_ts_is_list|by destruct v]]]].
  - exists ((λ kr, entry kr.1 kr.2) <$> recs).
    split; [apply convert_ts_mapping|]. split; [apply length_fmap|].
    intros j k rec Hj Hnd. rewrite list_lookup_fmap, Hj. csimpl.
    eexists. split; [done|]. split.
    + intros f x Hf. by rewrite dict_get_update, Hf.
    + intros Hdate. rewrite dict_get_update, Hdate by done.
      cbn. by rewrite decide_True.
  - split; [apply convert_ts_raise_inv|].
    intros (k & x & Hin & Hbad). by apply (convert_ts_bad_value items k x).
Qed.

(** ** Instances of the further properties *)

Lemma matched_name_injective_witness :
  Resample.matched_name (list_ascii_of_string "/data/dem.tif")
  = Resample.matched_name (list_ascii_of_string "/data/dem.tif")
  ∧ list_ascii_of_string "/data/dem.tif" = list_ascii_of_string "/data/dem.tif".
Proof.
  split; [reflexivity|].
  exact (matched_name_injective (list_ascii_of_string "/data/dem.tif")
           (list_ascii_of_string "/data/dem.tif") eq_refl).
Defined.

Lemma outside_pixels_valid_without_sentinel_witness :
  ex_rasterize 0 = inr (λ _, ex_window)
  ∧ ∃ rec,
      geom_step Float64.np (rasterio_dataset None 1 ex_rasterize)
        "band_1" 1 0 0 = (Ok rec, [])
      ∧ dict_get "band_1_count" rec = Some (PInt 4)
      ∧ dict_get "band_1_valid" rec = Some (PInt 4)
      ∧ dict_get "band_1_invalid" rec = Some (PInt 0).
Proof.
  split; [reflexivity|].
  destruct (outside_pixels_valid_without_sentinel Float64.np 1 ex_rasterize
              "band_1" 1 0 0 (λ _, ex_window) eq_refl)
    as (rec & Hrun & Hcount & Hvalid & Hinvalid).
  exists rec. split; [exact Hrun|]. split; [exact Hcount|].
  split; [exact Hvalid|exact Hinvalid].
Defined.

Lemma combined_records_concatenate_witness :
  NoDup (band_labels ex_src2 (Some ["red"]))
  ∧ ∃ log,
      compute_statistics Float64.np "a.tif" ex_src2 [0; 2] (Some ["red"])
      = (Ok ((λ g, concat (geom_band_records Float64.np ex_src2
                             (Some ["red"]) g)) <$> [0; 2]), log).
Proof.
  assert (NoDup (band_labels ex_src2 (Some ["red"]))) as Hnd by compute_done.
  split; [exact Hnd|].
  exact (combined_records_concatenate Float64.np "a.tif" ex_src2 [0; 2]
           (Some ["red"]) Hnd).
Defined.

(** With [ex_clash] both bands are labelled [band_2]; the fields are those
    of the second band. *)
Lemma last_band_with_a_label_wins_witness :
  1 < count ex_src2
  ∧ [0; 2] !! 0 = Some 0
  ∧ "_count" ∈ metrics
  ∧ band_label ex_clash 0 1 = band_label ex_clash 1 2
  ∧ ∃ stats log stat,
      compute_statistics Float64.np "a.tif" ex_src2 [0; 2] ex_clash
      = (Ok stats, log)
      ∧ stats !! 0 = Some stat
      ∧ dict_get "band_2_count" stat
        = dict_get "band_2_count"
            (geom_record Float64.np ex_src2 "band_2" 2 0).
Proof.
  assert (1 < count ex_src2) as Hi by (simpl; lia).
  assert ("_count" ∈ metrics) as Hm by compute_done.
  split; [exact Hi|]. split; [reflexivity|]. split; [exact Hm|].
  split; [vm_compute; reflexivity|].
  destruct (last_band_with_a_label_wins Float64.np "a.tif" ex_src2 [0; 2]
              ex_clash 1 0 0 "_count" Hi eq_refl Hm)
    as (stats & log & stat & Hrun & Hstat & _ & Hget).
  { intros i' Hi'. simpl in Hi'. lia. }
  exists stats, log, stat. split; [exact Hrun|]. split; [exact Hstat|].
  exact Hget.
Defined.

Lemma clean_run_log_witness :
  (∀ g, g ∈ [0; 1] → ∃ out_image, mask_crop ex_src g = inr out_image)
  ∧ ∃ stats,
      compute_statistics Float64.np "a.tif" ex_src [0; 1] None
      = (Ok stats,
         [(INFO, "Opening raster: a.tif"); (INFO, "Processing band_1 ...")]).
Proof.
  assert (∀ g, g ∈ [0; 1] → ∃ out_image, mask_crop ex_src g = inr out_image)
    as Hok.
  { intros g Hg. apply elem_of_cons in Hg as [->|Hg]; [by eexists|].
    apply elem_of_cons in Hg as [->|Hg]; [by eexists|].
    by apply elem_of_nil in Hg. }
  split; [exact Hok|].
  exact (clean_run_log Float64.np "a.tif" ex_src [0; 1] None Hok).
Defined.

Lemma run_stops_at_first_bad_date_witness :
  normalizes ex_gdf
  ∧ Forall2 (λ t k, DateKey.date_key t.1 = Ok k) ex_tiffs
      ["2023-01-01"; "2023-02-01"]
  ∧ DateKey.date_key "data/scene_20231345.tif" = Raise ValueError
  ∧ length ex_bad_tiffs ≠ 1
  ∧ ∃ log,
      main Float64.np None ex_gdf ex_bad_tiffs
      = (Raise ValueError,
         log ++ [(INFO, "[3/4] Processing TIFF: data/scene_20231345.tif")]).
Proof.
  assert (Forall2 (λ t k, DateKey.date_key t.1 = Ok k) ex_tiffs
            ["2023-01-01"; "2023-02-01"]) as Hkeys
    by (repeat constructor; vm_compute; reflexivity).
  assert (DateKey.date_key "data/scene_20231345.tif" = Raise ValueError)
    as Hbad by (vm_compute; reflexivity).
  assert (length ex_bad_tiffs ≠ 1) as Hmulti by (simpl; lia).
  split; [exact I|]. split; [exact Hkeys|]. split; [exact Hbad|].
  split; [exact Hmulti|].
  exact (run_stops_at_first_bad_date Float64.np None ex_gdf ex_tiffs
           [("data/scene_2023-03-01.tif", ex_src)]
           ["2023-01-01"; "2023-02-01"] "data/scene_20231345.tif" ex_src
           ValueError I Hkeys Hbad Hmulti).
Defined.

Lemma malformed_series_stops_the_run_witness :
  length ex_tiffs ≠ 1
  ∧ PDict [("2023-01-01", PInt 3)] ∈ [PDict [("2023-01-01", PInt 3)]; PNone; PList []]
  ∧ ("2023-01-01", PInt 3) ∈ [("2023-01-01", PInt 3)]
  ∧ main Float64.np None ex_bad_gdf ex_tiffs = (Raise TypeError, []).
Proof.
  assert (length ex_tiffs ≠ 1) as Hmulti by (simpl; lia).
  assert (PDict [("2023-01-01", PInt 3)]
          ∈ [PDict [("2023-01-01", PInt 3)]; PNone; PList []]) as Hin
    by (apply elem_of_cons; by left).
  assert (("2023-01-01", PInt 3) ∈ [("2023-01-01", PInt 3)]) as Hk
    by (apply elem_of_cons; by left).
  split; [exact Hmulti|]. split; [exact Hin|]. split; [exact Hk|].
  apply (malformed_series_stops_the_run Float64.np None ex_bad_gdf ex_tiffs
           _ _ "2023-01-01" (PInt 3) Hmulti eq_refl Hin Hk).
  intros fields Heq. discriminate Heq.
Defined.

Lemma re_search_sound_witness :
  ascii_only "s2_scene_2023-05-14.tif"
  ∧ DateKey.re_search "s2_scene_2023-05-14.tif" = Some "2023-05-14"
  ∧ String.length (DateKey.strip_seps "2023-05-14") = 8.
Proof.
  assert (DateKey.re_search "s2_scene_2023-05-14.tif" = Some "2023-05-14")
    as Hm by (vm_compute; reflexivity).
  assert (ascii_only "s2_scene_2023-05-14.tif") as Hascii
    by (vm_compute; reflexivity).
  split; [exact Hascii|]. split; [exact Hm|].
  destruct (re_search_sound _ _ Hascii Hm)
    as (pre & post & _ & _ & _ & _ & Hlen & _).
  exact Hlen.
Defined.

Lemma spelled_date_gives_iso_key_witness :
  ascii_only (DateKey.basename "data/scene_2024_0229_v2.tif")
  ∧ DateKey.basename "data/scene_2024_0229_v2.tif"
  = "scene_" +:+ "2024" +:+ "_" +:+ "02" +:+ "" +:+ "29" +:+ "_v2.tif"
  ∧ value "2024" = 2024 ∧ value "02" = 2 ∧ value "29" = 29
  ∧ DateKey.date_key "data/scene_2024_0229_v2.tif" = Ok "2024-02-29".
Proof.
  split; [vm_compute; reflexivity|]. split; [vm_compute; reflexivity|].
  split; [reflexivity|]. split; [reflexivity|]. split; [reflexivity|].
  apply (spelled_date_gives_iso_key "data/scene_2024_0229_v2.tif"
           "scene_" "_v2.tif" "2024" "_" "02" "" "29");
    try (vm_compute; reflexivity).
  - right. exists "_"%char. split; reflexivity.
  - by left.
  - vm_compute. lia.
  - vm_compute. lia.
  - vm_compute. lia.
Defined.

Lemma spelled_date_raises_iff_impossible_witness :
  ascii_only (DateKey.basename "data/scene_2023-02-30.tif")
  ∧ DateKey.basename "data/scene_2023-02-30.tif"
  = "scene_" +:+ "2023" +:+ "-" +:+ "02" +:+ "-" +:+ "30" +:+ ".tif"
  ∧ DateKey.days_in_month (value "2023") (value "02") = 28
  ∧ DateKey.date_key "data/scene_2023-02-30.tif" = Raise ValueError.
Proof.
  split; [vm_compute; reflexivity|].
  split; [vm_compute; reflexivity|]. split; [reflexivity|].
  apply (spelled_date_raises_iff_impossible "data/scene_2023-02-30.tif"
           "scene_" ".tif" "2023" "-" "02" "-" "30");
    try (vm_compute; reflexivity).
  - right. exists "-"%char. split; reflexivity.
  - right. exists "-"%char. split; reflexivity.
  - vm_compute. lia.
Defined.

(** X21 at two rasters over [ex_gdf], whose series all start empty. *)
Lemma timeseries_grow_by_append_witness :
  length ex_tiffs ≠ 1
  ∧ Forall2 (λ t k, DateKey.date_key t.1 = Ok k) ex_tiffs
      ["2023-01-01"; "2023-02-01"]
  ∧ starts_as ex_gdf 1 []
  ∧ ∃ ts log series fields,
      main Float64.np None ex_gdf ex_tiffs = (Ok (Timeseries ts), log)
      ∧ ts !! 1 = Some series
      ∧ length series = 2
      ∧ series !! 1 = Some (PDict fields)
      ∧ dict_get "date" fields = Some (PStr "2023-02-01")
      ∧ dict_get "band_1_count" fields = Some (PInt 0).
Proof.
  assert (length ex_tiffs ≠ 1) as Hmulti by (simpl; lia).
  assert (Forall2 (λ t k, DateKey.date_key t.1 = Ok k) ex_tiffs
            ["2023-01-01"; "2023-02-01"]) as Hkeys
    by (repeat constructor; vm_compute; reflexivity).
  assert (starts_as ex_gdf 1 []) as Hstart
    by (unfold starts_as; simpl; split; [lia|reflexivity]).
  split; [exact Hmulti|]. split; [exact Hkeys|]. split; [exact Hstart|].
  destruct (timeseries_grow_by_append Float64.np None ex_gdf ex_tiffs
              ["2023-01-01"; "2023-02-01"] 1 [] Hmulti Hkeys Hstart)
    as (ts & log & series & Hrun & Hts & Hlen & Hseries).
  destruct (Hseries 1 "data/scene_20230201_v2.tif" ex_src "2023-02-01"
              eq_refl eq_refl)
    as (stats & lg & stat & Hcs & Hstat & Hentry).
  vm_compute in Hcs. injection Hcs as <- _.
  vm_compute in Hstat. injection Hstat as <-.
  exists ts, log, series. eexists.
  split; [exact Hrun|]. split; [exact Hts|]. split; [exact Hlen|].
  split; [exact Hentry|]. split; reflexivity.
Defined.

(** X22 at the legacy mapping [ex_legacy]: two entries, the first dated by
    its key. *)
Lemma convert_ts_normalizes_witness :
  ex_legacy !! 0
  = Some ("2023-01-01", [("band_1_mean", PFloat (Float64.of_Z 3))])
  ∧ NoDup ["band_1_mean"]
  ∧ ∃ entries fields,
      convert_ts (mapping_of ex_legacy) = Ok entries
      ∧ length entries = 2
      ∧ entries !! 0 = Some (PDict fields)
      ∧ dict_get "date" fields = Some (PStr "2023-01-01")
      ∧ dict_get "band_1_mean" fields = Some (PFloat (Float64.of_Z 3)).
Proof.
  assert (NoDup ["band_1_mean"]) as Hnd
    by (apply NoDup_cons; split; [apply not_elem_of_nil|apply NoDup_nil_2]).
  split; [reflexivity|]. split; [exact Hnd|].
  destruct (convert_ts_normalizes ex_legacy [] [] PNone)
    as ((entries & Hmap & Hlen & Hentries) & _).
  destruct (Hentries 0 "2023-01-01"
              [("band_1_mean", PFloat (Float64.of_Z 3))] eq_refl Hnd)
    as (fields & Hlook & Hfields & Hdate).
  exists entries, fields. split; [exact Hmap|]. split; [exact Hlen|].
  split; [exact Hlook|]. split; [exact (Hdate eq_refl)|].
  exact (Hfields "band_1_mean" _ eq_refl).
Defined.
